(** * news_collector: tag extraction, session bookkeeping and the rate gate

    A shallow embedding of the logic of [app.py] and [db.py]: the regular
    expressions that find and strip [<SAVE_ITEM>] / [<UPDATE_ITEM>] blocks,
    the dash normaliser, the SQLite table behind [save_news_item],
    [update_news_item], [mark_done] and [delete_news_item], the in-memory
    session dictionary, the fixed-window rate limiter, the chat endpoint
    that ties them together, the manual submission and the feed note.

    Conventions.
    - A Python [str] is a list of Unicode code points ([N]).  Texts are taken
      to hold Unicode scalar values, as decoded UTF-8 does.
    - A Python [dict] whose iteration order the code relies on ([sessions]) is
      an association list in insertion order; the others are [gmap]s.
    - A function that reads or writes module-level state takes the state and
      returns the new one; a function that can raise returns an [outcome].
    - The clock ([time.monotonic()], SQLite's ['now']), the fresh
      [uuid.uuid4()] and the reply of the hosted model are inputs. *)

From Stdlib Require Import ZArith NArith List Bool Lia String Ascii.
From Stdlib Require Import DecimalString.
From Stdlib Require Import Floats.PrimFloat.
From stdpp Require Import base option list gmap.

Open Scope N_scope.

(** ** Python strings *)

Module Text.

(** An ASCII literal as a list of code points. *)
Definition lit (s : string) : list N :=
  List.map N_of_ascii (list_ascii_of_string s).

(** [str.isspace] of one code point, which is also what [\s] matches in a
    [str] pattern: the 25 code points of Unicode's White_Space property and
    the four information separators U+001C to U+001F. *)
Definition isspace (c : N) : bool :=
  ((9 <=? c) && (c <=? 13)) || ((28 <=? c) && (c <=? 32))
  || (c =? 0x85) || (c =? 0xA0) || (c =? 0x1680)
  || ((0x2000 <=? c) && (c <=? 0x200A))
  || (c =? 0x2028) || (c =? 0x2029) || (c =? 0x202F) || (c =? 0x205F)
  || (c =? 0x3000).

(** [s.lstrip()]; also the greedy [\s*] of a pattern, which takes every
    leading white-space character. *)
Fixpoint lstrip (s : list N) : list N :=
  match s with
  | c :: s' => if isspace c then lstrip s' else s
  | [] => []
  end.

(** [s.rstrip()]: a character is dropped when it is white space and so is
    everything after it. *)
Fixpoint rstrip (s : list N) : list N :=
  match s with
  | [] => []
  | c :: s' =>
      match rstrip s' with
      | [] => if isspace c then [] else [c]
      | r => c :: r
      end
  end.

(** [s.strip()] *)
Definition strip (s : list N) : list N := rstrip (lstrip s).

(** Truth value of a string: [bool(s)]. *)
Definition truthy (s : list N) : bool :=
  match s with [] => false | _ :: _ => true end.

(** [all([...])] over strings. *)
Definition all_truthy (l : list (list N)) : bool := forallb truthy l.

End Text.

(** ** The fragment of [re] that [app.py] uses *)

Module Re.

(** Lower case of an ASCII letter; other code points are left alone. *)
Definition ascii_lower (c : N) : N :=
  if (65 <=? c) && (c <=? 90) then c + 32 else c.

(** Whether the ASCII pattern literal [p] matches the text character [c]
    under [re.IGNORECASE] in a [str] pattern.  Besides the two ASCII cases,
    [i] matches U+0130 and U+0131, [s] matches U+017F and [k] matches U+212A
    (the [re] documentation lists these four). *)
Definition literal_ignorecase (p c : N) : bool :=
  let lo := ascii_lower p in
  (ascii_lower c =? lo)
  || ((lo =? 105) && ((c =? 0x130) || (c =? 0x131)))
  || ((lo =? 115) && (c =? 0x17F))
  || ((lo =? 107) && (c =? 0x212A)).

(** A literal run of the pattern matched at the head of [s]: the text that
    follows the match. *)
Fixpoint match_literal (p s : list N) : option (list N) :=
  match p, s with
  | [], _ => Some s
  | pc :: p', c :: s' =>
      if literal_ignorecase pc c then match_literal p' s' else None
  | _ :: _, [] => None
  end.

(** [(.*?)] under [re.DOTALL] followed by the literal [cl]: the shortest
    group after which [cl] matches, and the text after [cl]. *)
Fixpoint match_lazy_until (cl s : list N) : option (list N * list N) :=
  match match_literal cl s with
  | Some rest => Some ([], rest)
  | None =>
      match s with
      | [] => None
      | c :: s' =>
          match match_lazy_until cl s' with
          | Some (g, rest) => Some (c :: g, rest)
          | None => None
          end
      end
  end.

(** The pattern [op(.*?)cl] tried at the head of [s]: group 1 and the text
    after the match. *)
Definition match_tagged (op cl s : list N) : option (list N * list N) :=
  match match_literal op s with
  | Some s1 => match_lazy_until cl s1
  | None => None
  end.

(** [pattern.search(s)] for a pattern given by its matcher at a position:
    the leftmost position where it matches.  The result is the text before
    the match, what the matcher captured, and the text after the match. *)
Fixpoint search {A} (m : list N -> option (A * list N)) (s : list N)
  : option (list N * A * list N) :=
  match m s with
  | Some (g, rest) => Some ([], g, rest)
  | None =>
      match s with
      | [] => None
      | c :: s' =>
          match search m s' with
          | Some (pre, g, rest) => Some (c :: pre, g, rest)
          | None => None
          end
      end
  end.

(** [pattern.sub(repl, s)] with a constant replacement: every leftmost
    non-overlapping match is replaced, scanning on from the end of each
    match.  None of the patterns below matches the empty string, so each
    round consumes a character and [length s] rounds are enough. *)
Fixpoint sub_loop {A} (fuel : nat) (m : list N -> option (A * list N))
  (repl s : list N) : list N :=
  match fuel with
  | O => s
  | S fuel' =>
      match search m s with
      | None => s
      | Some (pre, _, rest) => pre ++ repl ++ sub_loop fuel' m repl rest
      end
  end.

Definition sub {A} (m : list N -> option (A * list N)) (repl s : list N)
  : list N :=
  sub_loop (length s) m repl s.

(** [\s*d\s*] for a character [d] that is not white space.  The greedy
    [\s*] takes the whole run of white space; giving some of it back cannot
    help, since [d] would then face a white-space character. *)
Definition match_spaced (d : N) (s : list N) : option (unit * list N) :=
  match Text.lstrip s with
  | c :: r => if c =? d then Some (tt, Text.lstrip r) else None
  | [] => None
  end.

(** [,\s*,] *)
Definition match_comma_pair (s : list N) : option (unit * list N) :=
  match s with
  | c :: r =>
      if c =? 44 then
        match Text.lstrip r with
        | c2 :: r2 => if c2 =? 44 then Some (tt, r2) else None
        | [] => None
        end
      else None
  | [] => None
  end.

End Re.

(** ** Python values the code relies on *)

Module Py.

(** The exceptions that can leave the modelled functions. *)
Inductive exn :=
| TypeError
| OverflowError
| HTTPException (status_code : Z).

(** A call either returns or raises. *)
Inductive outcome (A : Type) :=
| Return (a : A)
| Raise (e : exn).
Arguments Return {A} a.
Arguments Raise {A} e.

(** The code point of the zero of each run of ten decimal digits (general
    category Nd, Unicode 14); [int] accepts all of them. *)
Definition decimal_zeros : list N :=
  [0x30; 0x660; 0x6F0; 0x7C0; 0x966; 0x9E6; 0xA66; 0xAE6; 0xB66; 0xBE6;
   0xC66; 0xCE6; 0xD66; 0xDE6; 0xE50; 0xED0; 0xF20; 0x1040; 0x1090; 0x17E0;
   0x1810; 0x1946; 0x19D0; 0x1A80; 0x1A90; 0x1B50; 0x1BB0; 0x1C40; 0x1C50;
   0xA620; 0xA8D0; 0xA900; 0xA9D0; 0xA9F0; 0xAA50; 0xABF0; 0xFF10; 0x104A0;
   0x10D30; 0x11066; 0x110F0; 0x11136; 0x111D0; 0x112F0; 0x11450; 0x114D0;
   0x11650; 0x116C0; 0x11730; 0x118E0; 0x11950; 0x11C50; 0x11D50; 0x11DA0;
   0x16A60; 0x16AC0; 0x16B50; 0x1D7CE; 0x1D7D8; 0x1D7E2; 0x1D7EC; 0x1D7F6;
   0x1E140; 0x1E2F0; 0x1E950; 0x1FBF0].

Definition decimal_value (c : N) : option Z :=
  match List.find (fun z => (z <=? c) && (c <? z + 10)) decimal_zeros with
  | Some z => Some (Z.of_N (c - z))
  | None => None
  end.

(** Digits with single underscores between them: the value and the number
    of digits read. *)
Fixpoint int_digits (s : list N) (acc : Z) (count : nat) (after_digit : bool)
  : option (Z * nat) :=
  match s with
  | [] => if after_digit then Some (acc, count) else None
  | c :: s' =>
      if c =? 95 then
        if after_digit then int_digits s' acc count false else None
      else
        match decimal_value c with
        | Some d => int_digits s' (10 * acc + d)%Z (S count) true
        | None => None
        end
  end.

(** [sys.get_int_max_str_digits()], the default since Python 3.11. *)
Definition int_max_str_digits : nat := 4300.

(** The white space that [int] skips at both ends of its argument: the
    ASCII characters tab to carriage return and the space, and the white
    space beyond ASCII.  The information separators U+001C to U+001F, which
    [str.strip] removes, are not among them: [int] rejects them. *)
Definition int_isspace (c : N) : bool :=
  Text.isspace c && negb ((28 <=? c) && (c <=? 31)).

Fixpoint int_lstrip (s : list N) : list N :=
  match s with
  | c :: s' => if int_isspace c then int_lstrip s' else s
  | [] => []
  end.

Fixpoint int_rstrip (s : list N) : list N :=
  match s with
  | [] => []
  | c :: s' =>
      match int_rstrip s' with
      | [] => if int_isspace c then [] else [c]
      | r => c :: r
      end
  end.

(** [int(s)] in base ten; [None] stands for [ValueError]. *)
Definition int (s : list N) : option Z :=
  let s := int_rstrip (int_lstrip s) in
  let '(negative, body) :=
    match s with
    | 43 :: r => (false, r)
    | 45 :: r => (true, r)
    | _ => (false, s)
    end in
  match int_digits body 0%Z O false with
  | Some (v, n) =>
      if (int_max_str_digits <? n)%nat then None
      else Some (if negative then (- v)%Z else v)
  | None => None
  end.

(** [s.lower()] of one code point.  The entries are exact wherever an ASCII
    character is involved: ASCII letters, U+0130 and U+212A are the only code
    points whose lower case holds one.  Any other code point is kept as it
    is; its lower case is not ASCII either. *)
Definition lower_char (c : N) : list N :=
  if (65 <=? c) && (c <=? 90) then [c + 32]
  else if c =? 0x130 then [105; 0x307]
  else if c =? 0x212A then [107]
  else [c].

Definition lower (s : list N) : list N := List.concat (List.map lower_char s).

(** [s.startswith(p)] *)
Fixpoint startswith (p s : list N) : bool :=
  match p, s with
  | [], _ => true
  | pc :: p', c :: s' => (pc =? c) && startswith p' s'
  | _ :: _, [] => false
  end.

(** [needle in hay] *)
Fixpoint contains (needle hay : list N) : bool :=
  startswith needle hay ||
  match hay with
  | [] => false
  | _ :: hay' => contains needle hay'
  end.

(** [str(n)] for an int that is not negative: its decimal digits. *)
Definition str_of_nat (n : nat) : list N :=
  List.map N_of_ascii
    (list_ascii_of_string (NilEmpty.string_of_uint (Nat.to_uint n))).

(** [s[:n]] *)
Definition slice_to (n : nat) (s : list N) : list N := take n s.

(** [sep.join(lines)] *)
Fixpoint join (sep : list N) (lines : list (list N)) : list N :=
  match lines with
  | [] => []
  | [l] => l
  | l :: lines' => l ++ sep ++ join sep lines'
  end.

End Py.

(** ** [db.py]: the [news_items] table *)

Module Db.

(** A row of [news_items], which is also the dict that [dict(row)] gives. *)
Record NewsItem := {
  id : Z;
  submitter_name : list N;
  url : list N;
  reason : list N;
  agreed_text : list N;
  created_at : list N;
  done : Z
}.

(** The table by primary key, and the largest rowid handed out so far
    ([AUTOINCREMENT] keeps it in [sqlite_sequence]). *)
Record table := {
  rows : gmap Z NewsItem;
  last_rowid : Z
}.

Definition empty : table := {| rows := ∅; last_rowid := 0 |}.

(** SQLite stores a 64-bit signed INTEGER; the [sqlite3] module refuses to
    bind any other Python int. *)
Definition fits_int64 (z : Z) : bool :=
  (- 2 ^ 63 <=? z)%Z && (z <? 2 ^ 63)%Z.

(** [dict(conn.execute("SELECT ... WHERE id = ?").fetchone())]:
    [fetchone] gives [None] when no row has the id, and [dict(None)] raises. *)
Definition dict_of_fetchone (row : option NewsItem) : Py.outcome NewsItem :=
  match row with
  | Some r => Py.Return r
  | None => Py.Raise Py.TypeError
  end.

(** [save_news_item]; [now] is what [strftime(..., 'now')] gives. *)
Definition save_news_item (now : list N)
  (submitter_name url reason agreed_text : list N) (t : table)
  : table * Py.outcome NewsItem :=
  let lastrowid := (last_rowid t + 1)%Z in
  let row := {| id := lastrowid;
                submitter_name := Text.strip submitter_name;
                url := Text.strip url;
                reason := Text.strip reason;
                agreed_text := Text.strip agreed_text;
                created_at := now;
                done := 0 |} in
  let t' := {| rows := <[lastrowid := row]> (rows t);
               last_rowid := lastrowid |} in
  (t', dict_of_fetchone (rows t' !! lastrowid)).

(** [update_news_item] *)
Definition update_news_item (item_id : Z)
  (submitter_name url reason agreed_text : list N) (t : table)
  : table * Py.outcome NewsItem :=
  if negb (fits_int64 item_id) then (t, Py.Raise Py.OverflowError)
  else
    let t' :=
      match rows t !! item_id with
      | Some r =>
          {| rows := <[item_id :=
                       {| id := id r;
                          submitter_name := Text.strip submitter_name;
                          url := Text.strip url;
                          reason := Text.strip reason;
                          agreed_text := Text.strip agreed_text;
                          created_at := created_at r;
                          done := done r |}]> (rows t);
             last_rowid := last_rowid t |}
      | None => t
      end in
    (t', dict_of_fetchone (rows t' !! item_id)).

(** [mark_done]: the flag is stored as [int(done)]; an id that no row has
    changes nothing and raises nothing. *)
Definition mark_done (item_id : Z) (done : bool) (t : table)
  : table * Py.outcome unit :=
  if negb (fits_int64 item_id) then (t, Py.Raise Py.OverflowError)
  else
    (match rows t !! item_id with
     | Some r =>
         {| rows := <[item_id :=
                      {| id := id r;
                         submitter_name := submitter_name r;
                         url := url r;
                         reason := reason r;
                         agreed_text := agreed_text r;
                         created_at := created_at r;
                         done := if done then 1 else 0 |}]> (rows t);
            last_rowid := last_rowid t |}
     | None => t
     end,
     Py.Return tt).

(** [delete_news_item]; [AUTOINCREMENT] keeps the largest rowid handed out,
    so [last_rowid] stays. *)
Definition delete_news_item (item_id : Z) (t : table)
  : table * Py.outcome unit :=
  if negb (fits_int64 item_id) then (t, Py.Raise Py.OverflowError)
  else
    ({| rows := delete item_id (rows t); last_rowid := last_rowid t |},
     Py.Return tt).

(** [get_item_count] *)
Definition get_item_count (t : table) : Z := Z.of_nat (size (rows t)).

End Db.

(** ** [llm.py]: one conversation turn *)

Module Llm.

Inductive role := user | assistant.

(** A message dict [{"role": ..., "content": ...}]. *)
Record message := {
  msg_role : role;
  content : list N
}.

(** What [client.chat.completions.create] did this turn: it raised, or it
    answered with [message.content], which may be [None]. *)
Inductive completion :=
| Failed
| Answered (message_content : option (list N)).

(** [chat]: the reply and the history with both new messages appended.  The
    exception of a failed call is whatever the client raised; the caller
    catches every [Exception], so its identity is not kept. *)
Definition chat (reply : completion) (history : list message)
  (user_message : list N) : option (list N * list message) :=
  let updated_history :=
    history ++ [{| msg_role := user; content := user_message |}] in
  match reply with
  | Failed => None
  | Answered message_content =>
      let response_text := default [] message_content in
      Some (response_text,
            updated_history
              ++ [{| msg_role := assistant; content := response_text |}])
  end.

End Llm.

(** ** [app.py] *)

Module App.

Import Text.

Definition MAX_SESSIONS : nat := 500.
Definition MAX_HISTORY : nat := 60.

Definition FEED_KEYWORDS : list (list N) :=
  [lit "feed"; lit "recent"; lit "latest"; lit "what's been added";
   lit "what has been added"; lit "show me"; lit "show items";
   lit "see items"; lit "submitted"; lit "in the pipeline"; lit "so far";
   lit "what's there"; lit "what is there"; lit "list"; lit "entries"].

(** *** Rate limiting *)

Definition _RL_MAX : Z := 20.
Definition _RL_WINDOW : float := 60%float.

(** [_check_rate_limit]; [_rate_limit] maps an ip to [[count, window_start]]
    and [now] is [time.monotonic()]. *)
Definition _check_rate_limit (now : float) (ip : list N)
  (_rate_limit : gmap (list N) (Z * float))
  : gmap (list N) (Z * float) * bool :=
  match _rate_limit !! ip with
  | None => (<[ip := (1%Z, now)]> _rate_limit, true)
  | Some (count, start) =>
      if PrimFloat.ltb _RL_WINDOW (PrimFloat.sub now start) then
        (<[ip := (1%Z, now)]> _rate_limit, true)
      else if (_RL_MAX <=? count)%Z then (_rate_limit, false)
      else (<[ip := ((count + 1)%Z, start)]> _rate_limit, true)
  end.

(** *** The session dictionary, in insertion order *)

(** [d.get(k)] *)
Fixpoint dict_get {V} (k : list N) (d : list (list N * V)) : option V :=
  match d with
  | [] => None
  | (k', v) :: d' => if decide (k' = k) then Some v else dict_get k d'
  end.

(** [d[k] = v]: a known key keeps its place, a new one goes last. *)
Fixpoint dict_set {V} (k : list N) (v : V) (d : list (list N * V))
  : list (list N * V) :=
  match d with
  | [] => [(k, v)]
  | (k', v') :: d' =>
      if decide (k' = k) then (k, v) :: d' else (k', v') :: dict_set k v d'
  end.

(** [del d[k]] *)
Fixpoint dict_del {V} (k : list N) (d : list (list N * V))
  : list (list N * V) :=
  match d with
  | [] => []
  | (k', v') :: d' =>
      if decide (k' = k) then d' else (k', v') :: dict_del k d'
  end.

(** [_get_or_create_session] *)
Definition _get_or_create_session (session_id : list N)
  (sessions : list (list N * list Llm.message))
  : list (list N * list Llm.message) * list Llm.message :=
  match dict_get session_id sessions with
  | Some history => (sessions, history)
  | None =>
      let sessions :=
        if (MAX_SESSIONS <=? length sessions)%nat then
          let evict := take (MAX_SESSIONS / 10) (List.map fst sessions) in
          fold_left (fun d k => dict_del k d) evict sessions
        else sessions in
      (dict_set session_id [] sessions, [])
  end.

(** [_trim_history]: [history[:1] + history[-(MAX_HISTORY - 1):]] *)
Definition _trim_history (history : list Llm.message) : list Llm.message :=
  if (MAX_HISTORY <? length history)%nat then
    take 1 history ++ drop (length history - (MAX_HISTORY - 1)) history
  else history.

(** [_wants_feed] *)
Definition _wants_feed (message : list N) : bool :=
  let lower := Py.lower message in
  existsb (fun kw => Py.contains kw lower) FEED_KEYWORDS.

(** The fixed opening message of [new_session]. *)
Definition greeting : list N :=
  lit "Welcome to the newsletter agent! I'm here to help you add your news item. "
  ++ lit "If you have no idea how this works, let me know and I'll explain. "
  ++ lit "Or, if you do know how it works, just tell me your name and we'll get going.".

(** [new_session]; [session_id] is the fresh [str(uuid.uuid4())]. *)
Definition new_session (session_id : list N)
  (sessions : list (list N * list Llm.message))
  : list (list N * list Llm.message) * (list N * list N) :=
  (dict_set session_id
     [{| Llm.msg_role := Llm.assistant; Llm.content := greeting |}] sessions,
   (session_id, greeting)).

(** *** Tag parsing *)

(** The compiled patterns [<SAVE_ITEM>(.*?)</SAVE_ITEM>] and
    [<UPDATE_ITEM>(.*?)</UPDATE_ITEM>], [re.DOTALL | re.IGNORECASE]. *)
Definition SAVE_OPEN : list N := lit "<SAVE_ITEM>".
Definition SAVE_CLOSE : list N := lit "</SAVE_ITEM>".
Definition UPDATE_OPEN : list N := lit "<UPDATE_ITEM>".
Definition UPDATE_CLOSE : list N := lit "</UPDATE_ITEM>".

Definition save_pattern := Re.match_tagged SAVE_OPEN SAVE_CLOSE.
Definition update_pattern := Re.match_tagged UPDATE_OPEN UPDATE_CLOSE.

(** The inner [extract(tag)] of both parsers:
    [re.search(rf"<{tag}>(.*?)</{tag}>", block, re.DOTALL | re.IGNORECASE)]. *)
Definition extract (block : list N) (tag : list N) : list N :=
  match Re.search
          (Re.match_tagged (lit "<" ++ tag ++ lit ">")
                           (lit "</" ++ tag ++ lit ">")) block with
  | Some (_, g, _) => strip g
  | None => []
  end.

(** [_strip_dashes] *)
Definition EM_DASH : N := 0x2014.
Definition EN_DASH : N := 0x2013.

Definition _strip_dashes (text : list N) : list N :=
  let text := Re.sub (Re.match_spaced EM_DASH) (lit ", ") text in
  let text := Re.sub (Re.match_spaced EN_DASH) (lit ", ") text in
  let text := Re.sub Re.match_comma_pair (lit ",") text in
  text.

(** [_parse_save_tag]; [now] is the timestamp SQLite gives the new row. *)
Definition _parse_save_tag (now : list N) (response_text : list N)
  (t : Db.table)
  : Db.table * Py.outcome (list N * option Db.NewsItem) :=
  match Re.search save_pattern response_text with
  | None => (t, Py.Return (response_text, None))
  | Some (_, block, _) =>
      let name := extract block (lit "name") in
      let url := extract block (lit "url") in
      let reason := extract block (lit "reason") in
      let agreed_text := extract block (lit "agreed_text") in
      if negb (all_truthy [name; url; reason; agreed_text]) then
        let cleaned := strip (Re.sub save_pattern [] response_text) in
        (t, Py.Return (cleaned, None))
      else
        match Db.save_news_item now name url reason agreed_text t with
        | (t', Py.Raise e) => (t', Py.Raise e)
        | (t', Py.Return saved) =>
            let cleaned := strip (Re.sub save_pattern [] response_text) in
            (t', Py.Return (cleaned, Some saved))
        end
  end.

(** [_parse_update_tag] *)
Definition _parse_update_tag (response_text : list N) (t : Db.table)
  : Db.table * Py.outcome (list N * option Db.NewsItem) :=
  match Re.search update_pattern response_text with
  | None => (t, Py.Return (response_text, None))
  | Some (_, block, _) =>
      let item_id_str := extract block (lit "id") in
      let name := extract block (lit "name") in
      let url := extract block (lit "url") in
      let reason := extract block (lit "reason") in
      let agreed_text := extract block (lit "agreed_text") in
      if negb (all_truthy [item_id_str; name; url; reason; agreed_text]) then
        let cleaned := strip (Re.sub update_pattern [] response_text) in
        (t, Py.Return (cleaned, None))
      else
        match Py.int item_id_str with
        | None =>
            let cleaned := strip (Re.sub update_pattern [] response_text) in
            (t, Py.Return (cleaned, None))
        | Some item_id =>
            match Db.update_news_item item_id name url reason agreed_text t with
            | (t', Py.Raise e) => (t', Py.Raise e)
            | (t', Py.Return updated) =>
                let cleaned :=
                  strip (Re.sub update_pattern [] response_text) in
                (t', Py.Return (cleaned, Some updated))
            end
        end
  end.

(** *** The chat endpoint *)

(** The module-level state a request can touch. *)
Record state := {
  _rate_limit : gmap (list N) (Z * float);
  sessions : list (list N * list Llm.message);
  news_items : Db.table
}.

(** What one request reads from outside: both clocks, the rendering of the
    feed that [_build_feed_context()] would give (it only reads the table
    and is only sent to the model), and what the model call does. *)
Record turn := {
  monotonic : float;
  utc_now : list N;
  feed_context : list N;
  completion : Llm.completion
}.

(** The JSON body of a successful response. *)
Record reply := {
  response : list N;
  saved_item : option Db.NewsItem
}.

(** [updated_history[-1]["content"] = text] *)
Fixpoint set_last_content (history : list Llm.message) (text : list N)
  : list Llm.message :=
  match history with
  | [] => []
  | [m] => [{| Llm.msg_role := Llm.msg_role m; Llm.content := text |}]
  | m :: history' => m :: set_last_content history' text
  end.

(** The message handed to the model: with the feed note when the user asks
    for the feed. *)
Definition effective_message (env : turn) (user_message : list N) : list N :=
  if _wants_feed user_message then
    user_message ++ [10; 10]
    ++ lit "[SYSTEM NOTE " ++ [EM_DASH]
    ++ lit " for assistant only, do not quote verbatim]" ++ [10]
    ++ feed_context env
  else user_message.

(** [chat_endpoint]; [client] is [request.client.host] when there is one. *)
Definition chat_endpoint (env : turn) (client : option (list N))
  (session_id message : list N) (st : state) : state * Py.outcome reply :=
  let client_ip := default (lit "unknown") client in
  let '(rl, allowed) :=
    _check_rate_limit (monotonic env) client_ip (_rate_limit st) in
  if negb allowed then
    ({| _rate_limit := rl; sessions := sessions st;
        news_items := news_items st |},
     Py.Raise (Py.HTTPException 429))
  else
    let '(ss, history) := _get_or_create_session session_id (sessions st) in
    let history := _trim_history history in
    let user_message := strip message in
    if negb (truthy user_message) then
      ({| _rate_limit := rl; sessions := ss; news_items := news_items st |},
       Py.Raise (Py.HTTPException 400))
    else
      match Llm.chat (completion env) history
              (effective_message env user_message) with
      | None =>
          ({| _rate_limit := rl; sessions := ss;
              news_items := news_items st |},
           Py.Raise (Py.HTTPException 502))
      | Some (raw_response, updated_history) =>
          let raw_response := _strip_dashes raw_response in
          let '(t, parsed) :=
            match _parse_save_tag (utc_now env) raw_response
                    (news_items st) with
            | (t, Py.Return (cleaned_response, None)) =>
                _parse_update_tag cleaned_response t
            | saved => saved
            end in
          match parsed with
          | Py.Raise e =>
              ({| _rate_limit := rl; sessions := ss; news_items := t |},
               Py.Raise e)
          | Py.Return (cleaned_response, saved_item) =>
              let updated_history :=
                set_last_content updated_history cleaned_response in
              ({| _rate_limit := rl;
                  sessions := dict_set session_id updated_history ss;
                  news_items := t |},
               Py.Return {| response := cleaned_response;
                            saved_item := saved_item |})
          end
      end.

(** *** Keyword tests and the feed note *)

Definition UPDATE_KEYWORDS : list (list N) :=
  [lit "update"; lit "edit"; lit "change"; lit "amend"; lit "correct";
   lit "fix"; lit "revise"; lit "i made a mistake"; lit "wrong";
   lit "update my"; lit "edit my"; lit "change my"].

(** [_wants_update] *)
Definition _wants_update (message : list N) : bool :=
  let lower := Py.lower message in
  existsb (fun kw => Py.contains kw lower) UPDATE_KEYWORDS.

(** One entry of the feed note: the [i]-th item. *)
Definition feed_entry (i : nat) (item : Db.NewsItem) : list N :=
  [10] ++ lit "[" ++ Py.str_of_nat i ++ lit "] Added by "
  ++ Db.submitter_name item ++ lit " on "
  ++ Py.slice_to 10 (Db.created_at item) ++ [10]
  ++ lit "    URL: " ++ Db.url item ++ [10]
  ++ lit "    Blurb: " ++ Db.agreed_text item.

(** [enumerate(items, start)] mapped to the entries. *)
Fixpoint feed_entries (start : nat) (items : list Db.NewsItem)
  : list (list N) :=
  match items with
  | [] => []
  | item :: items' => feed_entry start item :: feed_entries (S start) items'
  end.

(** [_build_feed_context], from the rows that [get_feed(limit=limit)]
    returned. *)
Definition _build_feed_context (items : list Db.NewsItem) : list N :=
  match items with
  | [] => lit "FEED DATA: No items have been saved yet."
  | _ :: _ =>
      let lines :=
        (lit "FEED DATA " ++ [EM_DASH] ++ lit " "
         ++ Py.str_of_nat (length items) ++ lit " most recent item(s):")
        :: feed_entries 1 items in
      Py.join [10] lines
  end.

(** *** Manual submission and the done flag *)

Record ManualItemRequest := {
  name : list N;
  url : list N;
  headline : list N;
  entry : list N;
  reason : list N
}.

(** The [errors] dict of [add_manual], in insertion order. *)
Definition manual_errors (body : ManualItemRequest)
  : list (list N * list N) :=
  (if truthy (strip (name body)) then []
   else [(lit "name", lit "Please enter your name.")])
  ++ (if truthy (strip (url body)) then []
      else [(lit "url", lit "Please enter a URL.")])
  ++ (if truthy (strip (headline body)) then []
      else [(lit "headline", lit "Please enter a headline.")])
  ++ (if truthy (strip (entry body)) then []
      else [(lit "entry", lit "Please enter the entry text.")])
  ++ (if truthy (strip (reason body)) then []
      else [(lit "reason", lit "Please enter a reason for adding this item.")]).

(** [add_manual]; the detail of its 422 is [manual_errors body]. *)
Definition add_manual (now : list N) (body : ManualItemRequest)
  (t : Db.table) : Db.table * Py.outcome Db.NewsItem :=
  match manual_errors body with
  | _ :: _ => (t, Py.Raise (Py.HTTPException 422))
  | [] =>
      let agreed_text :=
        lit "**" ++ strip (headline body) ++ lit "** " ++ strip (entry body) in
      Db.save_news_item now (strip (name body)) (strip (url body))
        (strip (reason body)) agreed_text t
  end.

(** [set_done]: the answer is [{"ok": True, "id": item_id, "done": done}]. *)
Definition set_done (item_id : Z) (done : bool) (t : Db.table)
  : Db.table * Py.outcome (Z * bool) :=
  match Db.mark_done item_id done t with
  | (t', Py.Return _) => (t', Py.Return (item_id, done))
  | (t', Py.Raise e) => (t', Py.Raise e)
  end.

End App.

(** ** Vocabulary of the statements *)

Module Spec.

Import Text.

(** The verdicts of successive rate-gate checks of one client, made at the
    given readings of the monotonic clock. *)
Fixpoint checks (ip : list N) (times : list float)
  (rl : gmap (list N) (Z * float)) : gmap (list N) (Z * float) * list bool :=
  match times with
  | [] => (rl, [])
  | now :: times' =>
      let '(rl1, ok) := App._check_rate_limit now ip rl in
      let '(rl2, oks) := checks ip times' rl1 in
      (rl2, ok :: oks)
  end.

(** A check at [now] opens a window for [ip]: the client is unknown, or its
    current window started more than [_RL_WINDOW] ago. *)
Definition opens_window (rl : gmap (list N) (Z * float)) (ip : list N)
  (now : float) : Prop :=
  match rl !! ip with
  | None => True
  | Some (_, start) =>
      PrimFloat.ltb App._RL_WINDOW (PrimFloat.sub now start) = true
  end.

(** A check at [now] falls within the window that started at [start]. *)
Definition within_window (start now : float) : Prop :=
  PrimFloat.ltb App._RL_WINDOW (PrimFloat.sub now start) = false.

(** A matcher is sound when a match is a non-empty run at the head of the
    text, followed by the text the matcher returns. *)
Definition sound {A} (m : list N -> option (A * list N)) : Prop :=
  forall s g rest, m s = Some (g, rest) -> exists mid, mid <> [] /\ s = mid ++ rest.

(** [o] is a spelling of the pattern literal [p]: a text the literal
    matches in full, in whatever case. *)
Definition spelled (p o : list N) : Prop := Re.match_literal p o = Some [].

(** The literal [p] occurs in [s], in whatever case. *)
Definition occurs (p s : list N) : bool :=
  match Re.match_lazy_until p s with
  | Some _ => true
  | None => false
  end.

(** Neither delimiter of a block occurs in [s]. *)
Definition delimiter_free (op cl s : list N) : bool :=
  negb (occurs op s) && negb (occurs cl s).

(** No delimiter of either block occurs in [s]. *)
Definition markup_free (s : list N) : bool :=
  delimiter_free App.SAVE_OPEN App.SAVE_CLOSE s
  && delimiter_free App.UPDATE_OPEN App.UPDATE_CLOSE s.

(** [s] holds no [<]. *)
Definition plain (s : list N) : bool := forallb (fun c => negb (c =? 60)) s.

(** A pattern literal that starts with [<] and matches [<] nowhere else:
    every delimiter and tag of [app.py] is one. *)
Definition angle_led (p : list N) : bool :=
  match p with
  | c :: p' =>
      (c =? 60) && forallb (fun pc => negb (Re.literal_ignorecase pc 60)) p'
  | [] => false
  end.

(** Matching a literal, as a matcher that captures nothing. *)
Definition literal (p : list N) (s : list N) : option (unit * list N) :=
  match Re.match_literal p s with
  | Some rest => Some (tt, rest)
  | None => None
  end.

(** The pattern literal [p] and the text [T] differ at some position where
    both have a character: [p] matches no text that starts with [T]. *)
Fixpoint clash (p T : list N) : bool :=
  match p, T with
  | pc :: p', c :: T' => negb (Re.literal_ignorecase pc c) || clash p' T'
  | _, _ => false
  end.

(** [out] is [s] with every block of the pattern [op(.*?)cl] cut out: the
    text before a block is kept as it is, the block (a spelling of [op], its
    group, a spelling of [cl]) is dropped, and so on in the text after it,
    until no block is left. *)
Inductive blocks_removed (op cl : list N) : list N -> list N -> Prop :=
| removed_none s :
    Re.search (Re.match_tagged op cl) s = None -> blocks_removed op cl s s
| removed_block pre o g c rest out :
    spelled op o -> spelled cl c ->
    blocks_removed op cl rest out ->
    blocks_removed op cl (pre ++ o ++ g ++ c ++ rest) (pre ++ out).

(** The record a parser hands back, the cleaned text left aside. *)
Definition item_of (r : Py.outcome (list N * option Db.NewsItem))
  : Py.outcome (option Db.NewsItem) :=
  match r with
  | Py.Return (_, item) => Py.Return item
  | Py.Raise e => Py.Raise e
  end.

(** The tags [extract] looks for. *)
Definition open_tag (tag : list N) : list N := lit "<" ++ tag ++ lit ">".
Definition close_tag (tag : list N) : list N := lit "</" ++ tag ++ lit ">".

(** One sub-field as the prompt of [llm.py] writes it. *)
Definition element (tag value : list N) : list N :=
  open_tag tag ++ value ++ close_tag tag.

(** The inside of a save block laid out as the prompt asks: the four
    sub-fields in order, with any text between them. *)
Record save_block := {
  gap0 : list N;
  b_name : list N;
  gap1 : list N;
  b_url : list N;
  gap2 : list N;
  b_reason : list N;
  gap3 : list N;
  b_agreed_text : list N;
  gap4 : list N
}.

Definition body (b : save_block) : list N :=
  gap0 b ++ element (lit "name") (b_name b)
  ++ gap1 b ++ element (lit "url") (b_url b)
  ++ gap2 b ++ element (lit "reason") (b_reason b)
  ++ gap3 b ++ element (lit "agreed_text") (b_agreed_text b)
  ++ gap4 b.

(** A block is well formed when its values and the text between its
    sub-fields hold no [<], and no value is empty after trimming. *)
Definition well_formed (b : save_block) : bool :=
  forallb plain [gap0 b; b_name b; gap1 b; b_url b; gap2 b; b_reason b;
                 gap3 b; b_agreed_text b; gap4 b]
  && all_truthy [strip (b_name b); strip (b_url b); strip (b_reason b);
                 strip (b_agreed_text b)].

(** The row that [save_news_item] adds for such a block. *)
Definition saved_row (now : list N) (b : save_block) (t : Db.table)
  : Db.NewsItem :=
  {| Db.id := (Db.last_rowid t + 1)%Z;
     Db.submitter_name := strip (b_name b);
     Db.url := strip (b_url b);
     Db.reason := strip (b_reason b);
     Db.agreed_text := strip (b_agreed_text b);
     Db.created_at := now;
     Db.done := 0 |}.

(** The sub-fields that a save block and an update block must hold. *)
Definition save_fields : list (list N) :=
  [lit "name"; lit "url"; lit "reason"; lit "agreed_text"].

Definition update_fields : list (list N) := lit "id" :: save_fields.

(** A sub-field is missing from a block when the block holds no complete
    element of its tag: no opening tag that a closing tag follows, in
    whatever letter case the tags are written. *)
Definition field_missing (tag block : list N) : Prop :=
  forall pre o v c post,
    block = pre ++ o ++ v ++ c ++ post ->
    spelled (open_tag tag) o -> ~ spelled (close_tag tag) c.

(** A sub-field is empty when the first element of its tag (no opening tag
    stands before it) holds white space only. *)
Definition field_empty (tag block : list N) : Prop :=
  exists pre o v c post,
    block = pre ++ o ++ v ++ c ++ post
    /\ spelled (open_tag tag) o /\ spelled (close_tag tag) c
    /\ occurs (open_tag tag) pre = false
    /\ forallb isspace v = true.

Definition field_blank (tag block : list N) : Prop :=
  field_missing tag block \/ field_empty tag block.

(** The id of an update block is no integer: the value of the first [id]
    element, trimmed, is a text that [int] rejects. *)
Definition id_not_integer (block : list N) : Prop :=
  exists pre o v c post,
    block = pre ++ o ++ v ++ c ++ post
    /\ spelled (open_tag (lit "id")) o /\ spelled (close_tag (lit "id")) c
    /\ occurs (open_tag (lit "id")) pre = false
    /\ occurs (close_tag (lit "id")) v = false
    /\ Py.int (strip v) = None.

(** What [update_news_item] writes over the row [r]. *)
Definition updated_row (submitter_name url reason agreed_text : list N)
  (r : Db.NewsItem) : Db.NewsItem :=
  {| Db.id := Db.id r;
     Db.submitter_name := strip submitter_name;
     Db.url := strip url;
     Db.reason := strip reason;
     Db.agreed_text := strip agreed_text;
     Db.created_at := Db.created_at r;
     Db.done := Db.done r |}.

(** At most one write to the table: [t'] is [t], or [t] after one
    [save_news_item], or [t] after one [update_news_item]. *)
Definition one_mutation (now : list N) (t t' : Db.table) : Prop :=
  t' = t
  \/ (exists a b c d, t' = fst (Db.save_news_item now a b c d t))
  \/ (exists i a b c d, t' = fst (Db.update_news_item i a b c d t)).

(** The last message stored for a session. *)
Definition persisted_reply (session_id : list N) (st : App.state)
  : option (list N) :=
  match App.dict_get session_id (App.sessions st) with
  | Some history => option_map Llm.content (last history)
  | None => None
  end.

(** *** The item store over time *)

(** The shape of a table that only the functions of [db.py] have written:
    the largest rowid handed out is not negative, a row sits under its own
    id, and every id lies between 1 and the largest rowid handed out. *)
Definition table_ok (t : Db.table) : Prop :=
  (0 <= Db.last_rowid t)%Z
  /\ forall k r, Db.rows t !! k = Some r ->
       Db.id r = k /\ (0 < k <= Db.last_rowid t)%Z.

(** One call that writes to the table. *)
Inductive db_op :=
| op_save (now submitter_name url reason agreed_text : list N)
| op_add_manual (now : list N) (body : App.ManualItemRequest)
| op_update (item_id : Z) (submitter_name url reason agreed_text : list N)
| op_mark_done (item_id : Z) (done : bool)
| op_delete (item_id : Z).

(** The table after the call, whether it returned or raised. *)
Definition apply_op (o : db_op) (t : Db.table) : Db.table :=
  match o with
  | op_save now a b c d => fst (Db.save_news_item now a b c d t)
  | op_add_manual now body => fst (App.add_manual now body t)
  | op_update i a b c d => fst (Db.update_news_item i a b c d t)
  | op_mark_done i d => fst (Db.mark_done i d t)
  | op_delete i => fst (Db.delete_news_item i t)
  end.

Definition run_ops (ops : list db_op) (t : Db.table) : Db.table :=
  fold_left (fun t o => apply_op o t) ops t.

(** A row with only its done flag replaced. *)
Definition with_done (flag : Z) (r : Db.NewsItem) : Db.NewsItem :=
  {| Db.id := Db.id r;
     Db.submitter_name := Db.submitter_name r;
     Db.url := Db.url r;
     Db.reason := Db.reason r;
     Db.agreed_text := Db.agreed_text r;
     Db.created_at := Db.created_at r;
     Db.done := flag |}.

(** A row as the feed note may depend on it: the private reason, the id
    and the done flag blanked, and the timestamp cut to its date. *)
Definition redact (r : Db.NewsItem) : Db.NewsItem :=
  {| Db.id := 0;
     Db.submitter_name := Db.submitter_name r;
     Db.url := Db.url r;
     Db.reason := [];
     Db.agreed_text := Db.agreed_text r;
     Db.created_at := take 10 (Db.created_at r);
     Db.done := 0 |}.

(** The fields of a manual submission that are blank, by name and in the
    order [add_manual] checks them. *)
Definition blank_fields (body : App.ManualItemRequest) : list (list N) :=
  List.map fst
    (List.filter (fun kv => negb (truthy (strip (snd kv))))
       [(lit "name", App.name body); (lit "url", App.url body);
        (lit "headline", App.headline body); (lit "entry", App.entry body);
        (lit "reason", App.reason body)]).

(** A session dictionary holds each key once. *)
Definition dict_ok {V} (d : list (list N * V)) : Prop :=
  NoDup (List.map fst d).

(** Every entry of the rate-limit map counts between 1 and [_RL_MAX]. *)
Definition rate_ok (rl : gmap (list N) (Z * float)) : Prop :=
  forall ip count start, rl !! ip = Some (count, start) ->
    (1 <= count <= App._RL_MAX)%Z.

(** A pattern literal made of ASCII letters and of [_ < > /]: no white
    space, dash or comma can match any of its characters. *)
Definition wordlike (p : list N) : bool :=
  forallb (fun pc => ((65 <=? pc) && (pc <=? 90))
                     || ((97 <=? pc) && (pc <=? 122))
                     || (pc =? 95) || (pc =? 60) || (pc =? 62) || (pc =? 47))
    p.

(** A character that the dash normaliser may drop or bring in. *)
Definition separator (c : N) : bool :=
  isspace c || (c =? App.EM_DASH) || (c =? App.EN_DASH) || (c =? 44).

(** A pattern whose every match is a run of separators, not empty. *)
Definition separating {A} (m : list N -> option (A * list N)) : Prop :=
  forall s g rest, m s = Some (g, rest) ->
    exists mid, mid <> [] /\ forallb separator mid = true /\ s = mid ++ rest.

(** The inside of an update block laid out as the prompt asks. *)
Record update_block := {
  u_gap0 : list N;
  u_id : list N;
  u_gap1 : list N;
  u_name : list N;
  u_gap2 : list N;
  u_url : list N;
  u_gap3 : list N;
  u_reason : list N;
  u_gap4 : list N;
  u_agreed_text : list N;
  u_gap5 : list N
}.

Definition update_body (b : update_block) : list N :=
  u_gap0 b ++ element (lit "id") (u_id b)
  ++ u_gap1 b ++ element (lit "name") (u_name b)
  ++ u_gap2 b ++ element (lit "url") (u_url b)
  ++ u_gap3 b ++ element (lit "reason") (u_reason b)
  ++ u_gap4 b ++ element (lit "agreed_text") (u_agreed_text b)
  ++ u_gap5 b.

Definition update_well_formed (b : update_block) : bool :=
  forallb plain [u_gap0 b; u_id b; u_gap1 b; u_name b; u_gap2 b; u_url b;
                 u_gap3 b; u_reason b; u_gap4 b; u_agreed_text b; u_gap5 b]
  && all_truthy [strip (u_id b); strip (u_name b); strip (u_url b);
                 strip (u_reason b); strip (u_agreed_text b)].

End Spec.

(** ** Inputs of the examples *)

Module Examples.

Import Text Spec.

(** A well-formed block: Ada's item, one sub-field per line. *)
Definition ada : save_block :=
  {| gap0 := [10];
     b_name := lit " Ada ";
     gap1 := [10];
     b_url := lit "example.com/x";
     gap2 := [10];
     b_reason := lit "because it is a great demo";
     gap3 := [10];
     b_agreed_text := lit "**A demo worth reading.** It shows the tool.";
     gap4 := [10] |}.

Definition ada_reply : list N :=
  lit "Saving that now. " ++ App.SAVE_OPEN ++ body ada ++ App.SAVE_CLOSE
  ++ lit " Saved! Another one?".

Definition noon : list N := lit "2024-05-01T12:00:00Z".

(** Ada's block followed by a closing delimiter that closes nothing. *)
Definition stray_reply : list N :=
  App.SAVE_OPEN ++ body ada ++ App.SAVE_CLOSE ++ App.SAVE_CLOSE.

(** A save block with one sub-field only, and the tag named again later. *)
Definition partial_reply : list N :=
  lit "<SAVE_ITEM><name>Ada</name></SAVE_ITEM> I left out the rest of <SAVE_ITEM>.".

(** An update block whose id is a word. *)
Definition bad_id_reply : list N :=
  lit "Updating. <UPDATE_ITEM><id>seven</id><name>Ada</name>"
  ++ lit "<url>example.com/x</url><reason>typo</reason>"
  ++ lit "<agreed_text>**Fixed.** Done.</agreed_text></UPDATE_ITEM>".

(** An empty save block after indented text. *)
Definition padded_reply : list N := lit "  hi <SAVE_ITEM></SAVE_ITEM>".

(** Three spaced em dashes in a row. *)
Definition three_dashes : list N :=
  lit "a " ++ [App.EM_DASH] ++ lit " " ++ [App.EM_DASH] ++ lit " "
  ++ [App.EM_DASH] ++ lit " b".

(** The table after Ada's item has been saved at noon. *)
Definition one_item : Db.table :=
  {| Db.rows := {[ 1%Z := saved_row noon ada Db.empty ]};
     Db.last_rowid := 1 |}.

(** Session ids for the examples (a code point that tells them apart, then
    a fixed tail), and the store after [n] calls of [new_session] with
    them. *)
Definition session_name (i : nat) : list N :=
  N.of_nat i + 0x100 :: lit "-session".

Definition opened (n : nat) : list (list N * list Llm.message) :=
  fold_left (fun ss i => fst (App.new_session (session_name i) ss))
    (seq 0 n) [].

(** A fresh server, and one that holds Ada's item and one session. *)
Definition fresh : App.state :=
  {| App._rate_limit := ∅; App.sessions := []; App.news_items := Db.empty |}.

Definition running : App.state :=
  {| App._rate_limit := ∅;
     App.sessions := fst (App.new_session (session_name 0) []);
     App.news_items := one_item |}.

(** A turn in which the model call fails, and turns in which it answers. *)
Definition outage : App.turn :=
  {| App.monotonic := 12.5%float; App.utc_now := noon;
     App.feed_context := []; App.completion := Llm.Failed |}.

Definition answering (text : list N) : App.turn :=
  {| App.monotonic := 12.5%float; App.utc_now := noon;
     App.feed_context := []; App.completion := Llm.Answered (Some text) |}.

(** A reply that holds a complete save block and then an update block. *)
Definition update_of_ada : list N :=
  lit "<UPDATE_ITEM><id>1</id><name>Ada</name><url>example.com/y</url>"
  ++ lit "<reason>typo</reason><agreed_text>**Fixed.** Done.</agreed_text>"
  ++ lit "</UPDATE_ITEM>".

Definition both_blocks : list N :=
  App.SAVE_OPEN ++ body ada ++ App.SAVE_CLOSE ++ lit " and " ++ update_of_ada.

(** Twenty-six checks of one client: the first at 0.5 s, the others one
    second apart from 1 s on, all within the window the first one opens. *)
Definition burst_ip : list N := lit "203.0.113.7".
Definition burst_start : float := 0.5%float.
Definition burst_times : list float :=
  [1%float; 2%float; 3%float; 4%float; 5%float; 6%float; 7%float; 8%float;
   9%float; 10%float; 11%float; 12%float; 13%float; 14%float; 15%float;
   16%float; 17%float; 18%float; 19%float; 20%float; 21%float; 22%float;
   23%float; 24%float; 25%float].

(** Sixty-one messages, told apart by their content. *)
Definition long_history : list Llm.message :=
  List.map (fun i => {| Llm.msg_role := Llm.user;
                        Llm.content := [N.of_nat i] |}) (seq 0 61).

(** A table with two items, the second marked done. *)
Definition two_items : Db.table :=
  fst (Db.mark_done 2 true
         (fst (Db.save_news_item noon (lit "Bob") (lit "example.org/b")
                 (lit "found it useful") (lit "**B.** Second.") one_item))).

(** A manual submission with every field filled in, and one with a blank
    url and headline. *)
Definition filled_form : App.ManualItemRequest :=
  {| App.name := lit " Ada "; App.url := lit "example.com/x";
     App.headline := lit " A demo worth reading. ";
     App.entry := lit " It shows the tool. ";
     App.reason := lit "because it is a great demo" |}.

Definition partial_form : App.ManualItemRequest :=
  {| App.name := lit "Ada"; App.url := lit "  "; App.headline := [];
     App.entry := lit "It shows the tool.";
     App.reason := lit "because it is a great demo" |}.

(** A well-formed update block for item 1. *)
Definition ada_update : update_block :=
  {| u_gap0 := [10]; u_id := lit " 1 ";
     u_gap1 := [10]; u_name := lit "Ada L.";
     u_gap2 := [10]; u_url := lit "example.com/y";
     u_gap3 := [10]; u_reason := lit "typo in the link";
     u_gap4 := [10]; u_agreed_text := lit "**Fixed.** Done.";
     u_gap5 := [10] |}.

End Examples.

Close Scope N_scope.

(** * Properties *)

Import Text Re App Spec Examples.

(** ** Trimming a history *)

Section TrimHistory.

(** C7: a history longer than [MAX_HISTORY] is cut to exactly [MAX_HISTORY]
    messages, the first of which is the original first message (the others
    are the last [MAX_HISTORY - 1] messages); a history at or below the cap
    comes back unchanged. *)
Theorem trim_history_cap (history : list Llm.message) :
  (MAX_HISTORY < length history →
     length (_trim_history history) = MAX_HISTORY
     ∧ _trim_history history !! 0 = history !! 0
     ∧ drop 1 (_trim_history history)
       = drop (length history - (MAX_HISTORY - 1)) history)
  ∧ (length history ≤ MAX_HISTORY → _trim_history history = history).
Proof.
  unfold _trim_history, MAX_HISTORY. split.
  - intros Hlen.
    destruct (Nat.ltb_spec 60 (length history)) as [_|Hle]; [|lia].
    destruct history as [|m history]; [simpl in Hlen; lia|].
    split; [|split]; [|reflexivity..].
    rewrite length_app, length_take, length_drop. simpl length in *. lia.
  - intros Hlen.
    destruct (Nat.ltb_spec 60 (length history)) as [Hlt|_]; [lia|reflexivity].
Qed.

Lemma trim_history_cap_witness :
  length (_trim_history long_history) = MAX_HISTORY
  ∧ _trim_history long_history !! 0 = long_history !! 0
  ∧ drop 1 (_trim_history long_history)
    = drop (length long_history - (MAX_HISTORY - 1)) long_history.
Proof.
  apply (trim_history_cap long_history). vm_compute. lia.
Defined.

End TrimHistory.

(** ** The rate gate *)

Section RateGate.

Context (ip : list N).

(** Inside a window that holds [count] requests, the [i]-th further check
    passes exactly when [count + i] is still below the ceiling. *)
Lemma checks_in_window (start : float) (times : list float) :
  Forall (within_window start) times →
  ∀ (rl : gmap (list N) (Z * float)) (count : Z),
    rl !! ip = Some (count, start) →
    (checks ip times rl).2
    = List.map (fun i => (count + Z.of_nat i <? _RL_MAX)%Z)
        (seq 0 (length times)).
Proof.
  induction 1 as [|now times Hnow _ IH]; intros rl count Hrl; [reflexivity|].
  cbn [checks length seq List.map].
  unfold _check_rate_limit. rewrite Hrl.
  red in Hnow. rewrite Hnow.
  destruct (Z.leb_spec _RL_MAX count) as [Hmax|Hroom].
  - specialize (IH rl count Hrl).
    destruct (checks ip times rl) as [rl2 oks]. cbn [snd] in IH |- *.
    rewrite IH. f_equal.
    + symmetry. apply Z.ltb_ge. lia.
    + rewrite <- seq_shift, List.map_map.
      apply List.map_ext. intros i.
      rewrite (proj2 (Z.ltb_ge _ _)) by lia.
      symmetry. apply Z.ltb_ge. lia.
  - specialize (IH (<[ip := ((count + 1)%Z, start)]> rl) (count + 1)%Z
                  (lookup_insert_eq _ _ _)).
    destruct (checks ip times _) as [rl2 oks]. cbn [snd] in IH |- *.
    rewrite IH. f_equal.
    + symmetry. apply Z.ltb_lt. lia.
    + rewrite <- seq_shift, List.map_map.
      apply List.map_ext. intros i. f_equal. lia.
Qed.

Lemma check_opens_window (rl : gmap (list N) (Z * float)) (now : float) :
  opens_window rl ip now →
  _check_rate_limit now ip rl = (<[ip := (1%Z, now)]> rl, true).
Proof.
  unfold opens_window, _check_rate_limit.
  destruct (rl !! ip) as [[count start]|]; [|reflexivity].
  intros ->. reflexivity.
Qed.

(** A check of another client leaves this client's entry alone. *)
Lemma check_other_client (rl : gmap (list N) (Z * float)) (now : float)
  (other : list N) :
  other ≠ ip → (_check_rate_limit now other rl).1 !! ip = rl !! ip.
Proof.
  intros Hne. unfold _check_rate_limit.
  destruct (rl !! other) as [[count start]|]; cbn [fst];
    repeat case_match; cbn [fst];
    rewrite ?lookup_insert_ne by done; reflexivity.
Qed.

(** C9: when a check of [ip] at [t0] opens a window and the checks that
    follow all fall within [_RL_WINDOW] of [t0], the verdicts are [True] for
    exactly the first [_RL_MAX] checks and [False] for every later one.
    And whenever the time since the window start exceeds [_RL_WINDOW], the
    check passes and the entry is reset to count 1 and window start [now]. *)
Theorem rate_gate_fixed_window
  (rl : gmap (list N) (Z * float)) (t0 : float) (times : list float) :
  opens_window rl ip t0 →
  Forall (within_window t0) times →
  (checks ip (t0 :: times) rl).2
  = List.map (fun i => i <? Z.to_nat _RL_MAX) (seq 0 (S (length times)))
  ∧ ∀ (rl' : gmap (list N) (Z * float)) (count : Z) (start now : float),
      rl' !! ip = Some (count, start) →
      PrimFloat.ltb _RL_WINDOW (PrimFloat.sub now start) = true →
      _check_rate_limit now ip rl' = (<[ip := (1%Z, now)]> rl', true).
Proof.
  intros Hopen Hin. split.
  - cbn [checks]. rewrite (check_opens_window _ _ Hopen).
    pose proof (checks_in_window t0 times Hin (<[ip := (1%Z, t0)]> rl) 1%Z
                  (lookup_insert_eq _ _ _)) as Hrest.
    destruct (checks ip times _) as [rl2 oks]. cbn [snd] in Hrest |- *.
    rewrite Hrest. cbn [seq List.map]. f_equal.
    rewrite <- seq_shift, List.map_map.
    apply List.map_ext. intros i. unfold _RL_MAX.
    destruct (Nat.ltb_spec (S i) (Z.to_nat 20)),
      (Z.ltb_spec (1 + Z.of_nat i) 20); try reflexivity; lia.
  - intros rl' count start now Hrl' Hexp.
    apply check_opens_window. unfold opens_window. rewrite Hrl'. exact Hexp.
Qed.

End RateGate.

Lemma rate_gate_fixed_window_witness :
  (checks burst_ip (burst_start :: burst_times) ∅).2
  = List.map (fun i => i <? Z.to_nat _RL_MAX) (seq 0 26)
  ∧ ∀ (rl' : gmap (list N) (Z * float)) (count : Z) (start now : float),
      rl' !! burst_ip = Some (count, start) →
      PrimFloat.ltb _RL_WINDOW (PrimFloat.sub now start) = true →
      _check_rate_limit now burst_ip rl'
      = (<[burst_ip := (1%Z, now)]> rl', true).
Proof.
  apply (rate_gate_fixed_window burst_ip ∅ burst_start burst_times).
  - exact I.
  - unfold burst_times.
    repeat (constructor; [vm_compute; reflexivity|]). constructor.
Defined.

(** ** Trimming white space *)

Section Strip.

Lemma lstrip_head (s : list N) :
  lstrip s = [] ∨ ∃ c r, lstrip s = c :: r ∧ isspace c = false.
Proof.
  induction s as [|c s IH]; [left; reflexivity|].
  cbn [lstrip]. destruct (isspace c) eqn:Hc; [exact IH|].
  right. exists c, s. split; [reflexivity|exact Hc].
Qed.

Lemma lstrip_suffix (s : list N) : ∃ ws, s = ws ++ lstrip s.
Proof.
  induction s as [|c s [ws IH]]; [exists []; reflexivity|].
  cbn [lstrip]. destruct (isspace c).
  - exists (c :: ws). cbn. f_equal. exact IH.
  - exists []. reflexivity.
Qed.

Lemma rstrip_prefix (s : list N) : ∃ ws, s = rstrip s ++ ws.
Proof.
  induction s as [|c s [ws IH]]; [exists []; reflexivity|].
  cbn [rstrip]. destruct (rstrip s) as [|c' r] eqn:Hr.
  - destruct (isspace c).
    + exists (c :: s). reflexivity.
    + exists ws. cbn. f_equal. exact IH.
  - exists ws. cbn. f_equal. exact IH.
Qed.

Lemma rstrip_keeps_head (c : N) (s : list N) :
  isspace c = false → ∃ r, rstrip (c :: s) = c :: r.
Proof.
  intros Hc. cbn [rstrip]. rewrite Hc.
  destruct (rstrip s) as [|c' r]; eauto.
Qed.

Lemma rstrip_idem (s : list N) : rstrip (rstrip s) = rstrip s.
Proof.
  induction s as [|c s IH]; [reflexivity|].
  cbn [rstrip]. destruct (rstrip s) as [|c' r] eqn:Hr.
  - destruct (isspace c) eqn:Hc; [reflexivity|]. cbn [rstrip]. rewrite Hc. reflexivity.
  - cbn [rstrip]. cbn [rstrip] in IH. rewrite IH. reflexivity.
Qed.

Lemma lstrip_strip (s : list N) : lstrip (strip s) = strip s.
Proof.
  unfold strip. destruct (lstrip_head s) as [->|(c & r & -> & Hc)]; [reflexivity|].
  destruct (rstrip_keeps_head c r Hc) as [r' ->].
  cbn [lstrip]. rewrite Hc. reflexivity.
Qed.

(** [strip] is idempotent: [save_news_item] strips what [extract] has
    already stripped. *)
Lemma strip_idem (s : list N) : strip (strip s) = strip s.
Proof.
  unfold strip at 1. rewrite lstrip_strip. unfold strip. apply rstrip_idem.
Qed.

End Strip.

(** ** Searching and substituting *)

Section Matchers.

Context {A : Type} (m : list N → option (A * list N)).

Lemma search_Some (s pre rest : list N) (g : A) :
  search m s = Some (pre, g, rest) →
  ∃ mid, s = pre ++ mid ∧ m mid = Some (g, rest)
         ∧ ∀ a b, pre = a ++ b → b ≠ [] → m (b ++ mid) = None.
Proof.
  revert pre. induction s as [|c s IH]; intros pre; cbn [search].
  - destruct (m []) as [[g' rest']|] eqn:Hm; [|discriminate].
    intros [= <- <- <-]. exists []. split; [reflexivity|]. split; [exact Hm|].
    intros [|] [|] ?; done.
  - destruct (m (c :: s)) as [[g' rest']|] eqn:Hm.
    + intros [= <- <- <-]. exists (c :: s). split; [reflexivity|]. split; [exact Hm|].
      intros [|] [|] ?; done.
    + destruct (search m s) as [[[pre' g'] rest']|] eqn:Hs; [|discriminate].
      intros [= <- <- <-].
      destruct (IH pre' eq_refl) as (mid & -> & Hmid & Hearly).
      exists mid. split; [reflexivity|]. split; [exact Hmid|].
      intros a b Hab Hb. destruct a as [|c' a].
      * cbn in Hab. subst b. exact Hm.
      * injection Hab as -> ->. apply (Hearly a b eq_refl Hb).
Qed.

Lemma search_None (s : list N) :
  search m s = None ↔ ∀ a b, s = a ++ b → m b = None.
Proof.
  induction s as [|c s IH]; cbn [search].
  - destruct (m []) as [[g rest]|] eqn:Hm.
    + split; [discriminate|]. intros H. rewrite (H [] [] eq_refl) in Hm. discriminate.
    + split; [|reflexivity]. intros _ [|] [|] ?; done.
  - destruct (m (c :: s)) as [[g rest]|] eqn:Hm.
    + split; [discriminate|]. intros H. rewrite (H [] _ eq_refl) in Hm. discriminate.
    + destruct (search m s) as [[[pre g] rest]|] eqn:Hs.
      * split; [discriminate|]. intros H.
        assert (Some (pre, g, rest) = None) as Habs; [|discriminate].
        apply IH. intros a b ->. apply (H (c :: a) b eq_refl).
      * split; [|reflexivity]. intros _ a b Hab. destruct a as [|c' a].
        -- cbn in Hab. subst b. exact Hm.
        -- injection Hab as -> ->. apply (proj1 IH eq_refl a b eq_refl).
Qed.

(** Where the matcher fails at every position before [mid] and matches at
    [mid], the search finds that match. *)
Lemma search_first (pre mid rest : list N) (g : A) :
  (∀ a b, pre = a ++ b → b ≠ [] → m (b ++ mid) = None) →
  m mid = Some (g, rest) →
  search m (pre ++ mid) = Some (pre, g, rest).
Proof.
  intros Hearly Hmid. induction pre as [|c pre IH].
  - cbn [app]. destruct mid; cbn [search]; rewrite Hmid; reflexivity.
  - pose proof (Hearly [] (c :: pre) eq_refl ltac:(done)) as Hhere.
    cbn [app] in Hhere |- *. cbn [search]. rewrite Hhere.
    rewrite IH; [reflexivity|].
    intros a b -> Hb. apply (Hearly (c :: a) b eq_refl Hb).
Qed.

Lemma sub_no_match (repl s : list N) :
  search m s = None → sub m repl s = s.
Proof.
  unfold sub. destruct (length s); cbn [sub_loop]; [reflexivity|].
  intros ->. reflexivity.
Qed.

Context (Hsound : sound m).

Lemma search_shrinks (s pre rest : list N) (g : A) :
  search m s = Some (pre, g, rest) → length rest < length s.
Proof using Hsound.
  intros (mid & -> & Hmid & _)%search_Some.
  destruct (Hsound _ _ _ Hmid) as (mid' & Hne & ->).
  rewrite !length_app. destruct mid'; [done|]. cbn. lia.
Qed.

Lemma sub_loop_fuel (repl : list N) (n1 n2 : nat) (s : list N) :
  length s ≤ n1 → length s ≤ n2 →
  sub_loop n1 m repl s = sub_loop n2 m repl s.
Proof using Hsound.
  revert n2 s. induction n1 as [|n1 IH]; intros n2 s H1 H2.
  - destruct s; [|cbn in H1; lia].
    destruct n2; cbn [sub_loop]; [reflexivity|].
    destruct (search m []) as [[[pre g] rest]|] eqn:Hs; [|reflexivity].
    apply search_shrinks in Hs. cbn in Hs. lia.
  - destruct n2 as [|n2].
    + destruct s; [|cbn in H2; lia]. cbn [sub_loop].
      destruct (search m []) as [[[pre g] rest]|] eqn:Hs; [|reflexivity].
      apply search_shrinks in Hs. cbn in Hs. lia.
    + cbn [sub_loop].
      destruct (search m s) as [[[pre g] rest]|] eqn:Hs; [|reflexivity].
      apply search_shrinks in Hs. rewrite (IH n2 rest) by lia. reflexivity.
Qed.

(** One round of [sub]: the text up to the first match, the replacement,
    and [sub] of what follows the match. *)
Lemma sub_unfold (repl s : list N) :
  sub m repl s =
  match search m s with
  | None => s
  | Some (pre, _, rest) => pre ++ repl ++ sub m repl rest
  end.
Proof using Hsound.
  unfold sub. destruct (length s) as [|n] eqn:Hlen; cbn [sub_loop].
  - destruct (search m s) as [[[pre g] rest]|] eqn:Hs; [|reflexivity].
    apply search_shrinks in Hs. lia.
  - destruct (search m s) as [[[pre g] rest]|] eqn:Hs; [|reflexivity].
    apply search_shrinks in Hs.
    rewrite (sub_loop_fuel repl n (length rest) rest) by lia. reflexivity.
Qed.

End Matchers.

(** ** Literals and delimited blocks *)

Section Literals.

Lemma literal_ignorecase_refl (c : N) : literal_ignorecase c c = true.
Proof. unfold literal_ignorecase. rewrite N.eqb_refl. reflexivity. Qed.

(** The pattern character [<] matches [<] only. *)
Lemma literal_ignorecase_lt (c : N) :
  literal_ignorecase 60 c = true → c = 60%N.
Proof.
  unfold literal_ignorecase, ascii_lower. cbn.
  destruct ((65 <=? c)%N && (c <=? 90)%N) eqn:Hup.
  - apply andb_true_iff in Hup as [?%N.leb_le ?%N.leb_le].
    rewrite !orb_false_r. intros ?%N.eqb_eq. lia.
  - rewrite !orb_false_r. intros ?%N.eqb_eq. assumption.
Qed.

Lemma match_literal_self (p s : list N) : match_literal p (p ++ s) = Some s.
Proof.
  induction p as [|c p IH]; [destruct s; reflexivity|].
  cbn. rewrite literal_ignorecase_refl. exact IH.
Qed.

Lemma spelled_self (p : list N) : spelled p p.
Proof.
  unfold spelled. rewrite <- (app_nil_r p) at 2. apply match_literal_self.
Qed.

Lemma match_literal_app_l (p s r t : list N) :
  match_literal p s = Some r → match_literal p (s ++ t) = Some (r ++ t).
Proof.
  revert s. induction p as [|pc p IH]; intros s.
  - destruct s; cbn; intros [= <-]; reflexivity.
  - destruct s as [|c s]; cbn; [discriminate|].
    destruct (literal_ignorecase pc c); [apply IH|discriminate].
Qed.

Lemma spelled_app (p o s : list N) :
  spelled p o → match_literal p (o ++ s) = Some s.
Proof. intros H. apply (match_literal_app_l _ _ _ s) in H. exact H. Qed.

(** What a literal matches is a spelling of it, at the head of the text. *)
Lemma match_literal_Some (p s r : list N) :
  match_literal p s = Some r →
  ∃ o, s = o ++ r ∧ spelled p o ∧ length o = length p.
Proof.
  revert s. induction p as [|pc p IH]; intros s.
  - destruct s; cbn; intros [= <-]; exists []; done.
  - destruct s as [|c s]; cbn; [discriminate|].
    destruct (literal_ignorecase pc c) eqn:Hc; [|discriminate].
    intros (o & -> & Ho & Hlen)%IH. exists (c :: o).
    split; [reflexivity|]. split; [|cbn; congruence].
    unfold spelled. cbn. rewrite Hc. exact Ho.
Qed.

(** A match that starts inside [b] and runs over the character [c] that
    follows either ends within [b], or has a pattern character other than
    the first facing [c]. *)
Lemma match_literal_straddle (p b y r : list N) (c : N) :
  b ≠ [] →
  match_literal p (b ++ c :: y) = Some r →
  (∃ r', match_literal p b = Some r')
  ∨ ∃ pc, pc ∈ tail p ∧ literal_ignorecase pc c = true.
Proof.
  revert b. induction p as [|pc p IH]; intros b Hb.
  - left. exists b. destruct b; reflexivity.
  - destruct b as [|bc b]; [done|]. cbn.
    destruct (literal_ignorecase pc bc); [|discriminate].
    destruct b as [|bc' b].
    + cbn [app]. destruct p as [|pc' p]; [left; eauto|]. cbn.
      destruct (literal_ignorecase pc' c) eqn:Hc; [|discriminate].
      intros _. right. exists pc'. split; [left|exact Hc].
    + intros [[r' Hr']|(pc' & Hin & Hc)]%IH; [left; eauto| |done].
      right. exists pc'. split; [|exact Hc].
      destruct p; [inversion Hin|]. right. exact Hin.
Qed.

Lemma angle_led_head (p : list N) :
  angle_led p = true → ∃ p', p = 60%N :: p'.
Proof.
  destruct p as [|c p']; [discriminate|]. cbn.
  intros [?%N.eqb_eq _]%andb_true_iff. subst c. eauto.
Qed.

Lemma angle_led_tail (p : list N) (pc : N) :
  angle_led p = true → pc ∈ tail p → literal_ignorecase pc 60 = false.
Proof.
  destruct p as [|c p']; [discriminate|]. cbn.
  intros [_ Hall]%andb_true_iff Hin.
  rewrite forallb_forall in Hall. apply negb_true_iff, Hall.
  apply list_elem_of_In. exact Hin.
Qed.

Lemma spelled_angle (p o : list N) :
  angle_led p = true → spelled p o → ∃ o', o = 60%N :: o'.
Proof.
  intros [p' ->]%angle_led_head. unfold spelled.
  destruct o as [|c o]; cbn; [discriminate|].
  destruct (literal_ignorecase 60 c) eqn:Hc; [|discriminate].
  apply literal_ignorecase_lt in Hc as ->. eauto.
Qed.

(** An angle-led literal cannot match across the [<] that follows [b]. *)
Lemma angle_led_no_straddle (p b y r : list N) :
  angle_led p = true → b ≠ [] →
  match_literal p (b ++ 60%N :: y) = Some r →
  ∃ r', match_literal p b = Some r'.
Proof.
  intros Hp Hb [Hin|(pc & Hin & Hc)]%match_literal_straddle; [exact Hin| |exact Hb].
  rewrite (angle_led_tail p pc Hp Hin) in Hc. discriminate.
Qed.

(** An angle-led literal matches only at a [<]. *)
Lemma angle_led_needs_lt (p s : list N) (c : N) :
  angle_led p = true → c ≠ 60%N → match_literal p (c :: s) = None.
Proof.
  intros [p' ->]%angle_led_head Hc. cbn.
  destruct (literal_ignorecase 60 c) eqn:Hm; [|reflexivity].
  apply literal_ignorecase_lt in Hm. done.
Qed.

(** The lazy group is a search for the closing literal. *)
Lemma lazy_as_search (cl s : list N) :
  match_lazy_until cl s =
  match search (literal cl) s with
  | Some (g, _, rest) => Some (g, rest)
  | None => None
  end.
Proof.
  induction s as [|c s IH]; cbn [match_lazy_until search]; unfold literal at 1.
  - destruct (match_literal cl []); reflexivity.
  - destruct (match_literal cl (c :: s)); [reflexivity|].
    rewrite IH. destruct (search (literal cl) s) as [[[g []] rest]|]; reflexivity.
Qed.

Lemma occurs_false (p s : list N) :
  occurs p s = false ↔ ∀ a b, s = a ++ b → match_literal p b = None.
Proof.
  unfold occurs. rewrite lazy_as_search.
  destruct (search (literal p) s) as [[[g []] rest]|] eqn:Hs.
  - split; [discriminate|]. intros H.
    apply search_Some in Hs as (mid & -> & Hmid & _).
    unfold literal in Hmid. rewrite (H g mid eq_refl) in Hmid. discriminate.
  - split; [|reflexivity]. intros _ a b Hab.
    pose proof (proj1 (search_None _ _) Hs a b Hab) as Hb.
    unfold literal in Hb. destruct (match_literal p b); [discriminate|reflexivity].
Qed.

Lemma occurs_app (p a b : list N) :
  occurs p (a ++ b) = false → occurs p a = false ∧ occurs p b = false.
Proof.
  rewrite !occurs_false. intros H. split.
  - intros a1 a2 ->. destruct (match_literal p a2) as [r|] eqn:Hm; [|reflexivity].
    apply (match_literal_app_l _ _ _ b) in Hm.
    rewrite (H a1 (a2 ++ b)) in Hm; [discriminate|]. rewrite app_assoc. reflexivity.
  - intros b1 b2 ->. apply (H (a ++ b1) b2). rewrite app_assoc. reflexivity.
Qed.

(** Trimming cannot bring a delimiter in. *)
Lemma occurs_strip (p s : list N) :
  occurs p s = false → occurs p (strip s) = false.
Proof.
  intros H. unfold strip.
  destruct (lstrip_suffix s) as [ws1 Hs]. rewrite Hs in H.
  apply occurs_app in H as [_ H].
  destruct (rstrip_prefix (lstrip s)) as [ws2 Hr]. rewrite Hr in H.
  apply occurs_app in H as [H _]. exact H.
Qed.

Lemma delimiter_free_strip (op cl s : list N) :
  delimiter_free op cl s = true → delimiter_free op cl (strip s) = true.
Proof.
  unfold delimiter_free.
  intros [?%negb_true_iff ?%negb_true_iff]%andb_true_iff.
  rewrite !occurs_strip by assumption. reflexivity.
Qed.

End Literals.

Section Tagged.

Context (op cl : list N).
Context (Hop : angle_led op = true) (Hcl : angle_led cl = true).

(** A match of [op(.*?)cl] is a spelling of [op], the group, a spelling of
    [cl], and then the rest of the text. *)
Lemma tagged_Some (s g rest : list N) :
  match_tagged op cl s = Some (g, rest) →
  ∃ o c, s = o ++ g ++ c ++ rest ∧ spelled op o ∧ spelled cl c.
Proof.
  unfold match_tagged.
  destruct (match_literal op s) as [s1|] eqn:Ho; [|discriminate].
  apply match_literal_Some in Ho as (o & -> & Ho & _).
  rewrite lazy_as_search.
  destruct (search (literal cl) s1) as [[[g' []] rest']|] eqn:Hs; [|discriminate].
  intros [= -> ->].
  apply search_Some in Hs as (mid & -> & Hmid & _).
  unfold literal in Hmid.
  destruct (match_literal cl mid) as [r|] eqn:Hc; [|discriminate].
  injection Hmid as ->.
  apply match_literal_Some in Hc as (c & -> & Hc & _).
  exists o, c. done.
Qed.

Lemma tagged_sound : sound (match_tagged op cl).
Proof using Hop.
  intros s g rest (o & c & -> & Ho & _)%tagged_Some.
  exists (o ++ g ++ c). split; [|rewrite <- !app_assoc; reflexivity].
  destruct (spelled_angle op o Hop Ho) as [o' ->]. done.
Qed.

(** The lazy group ends at the first spelling of [cl]. *)
Lemma lazy_first (body c post : list N) :
  occurs cl body = false → spelled cl c →
  match_lazy_until cl (body ++ c ++ post) = Some (body, post).
Proof using Hcl.
  intros Hbody Hc. rewrite lazy_as_search.
  rewrite (search_first (literal cl) body (c ++ post) post tt); [reflexivity| |].
  - intros a b -> Hb. unfold literal.
    destruct (spelled_angle cl c Hcl Hc) as [c' ->]. cbn [app].
    destruct (match_literal cl (b ++ 60%N :: c' ++ post)) as [r|] eqn:Hm; [|reflexivity].
    apply angle_led_no_straddle in Hm as [r' Hm]; [|exact Hcl|exact Hb].
    rewrite (proj1 (occurs_false cl (a ++ b)) Hbody a b eq_refl) in Hm. discriminate.
  - unfold literal. rewrite (spelled_app cl c post Hc). reflexivity.
Qed.

(** With no opening delimiter before it and no closing delimiter inside it,
    a block is the first match of the pattern. *)
Lemma tagged_first_block (pre o body c post : list N) :
  occurs op pre = false → occurs cl body = false →
  spelled op o → spelled cl c →
  search (match_tagged op cl) (pre ++ o ++ body ++ c ++ post)
  = Some (pre, body, post).
Proof using Hop Hcl.
  intros Hpre Hbody Ho Hc. apply search_first.
  - intros a b -> Hb. unfold match_tagged.
    destruct (spelled_angle op o Hop Ho) as [o' ->]. cbn [app].
    destruct (match_literal op (b ++ 60%N :: o' ++ body ++ c ++ post))
      as [r|] eqn:Hm; [|reflexivity].
    apply angle_led_no_straddle in Hm as [r' Hm]; [|exact Hop|exact Hb].
    rewrite (proj1 (occurs_false op (a ++ b)) Hpre a b eq_refl) in Hm. discriminate.
  - unfold match_tagged. rewrite (spelled_app op o _ Ho).
    apply lazy_first; assumption.
Qed.

Lemma tagged_no_match (s : list N) :
  occurs op s = false → search (match_tagged op cl) s = None.
Proof.
  intros Hs. apply search_None. intros a b ->. unfold match_tagged.
  rewrite (proj1 (occurs_false op (a ++ b)) Hs a b eq_refl). reflexivity.
Qed.

(** Stripping a text that holds one block and no other delimiter. *)
Lemma sub_single_block (pre o body c post : list N) :
  occurs cl body = false → spelled op o → spelled cl c →
  delimiter_free op cl (pre ++ post) = true →
  search (match_tagged op cl) (pre ++ o ++ body ++ c ++ post)
  = Some (pre, body, post)
  ∧ sub (match_tagged op cl) [] (pre ++ o ++ body ++ c ++ post) = pre ++ post.
Proof using Hop Hcl.
  intros Hbody Ho Hc [Hfree _]%andb_true_iff.
  apply negb_true_iff, occurs_app in Hfree as [Hpre Hpost].
  pose proof (tagged_first_block pre o body c post Hpre Hbody Ho Hc) as Hs.
  split; [exact Hs|].
  rewrite (sub_unfold _ tagged_sound), Hs.
  rewrite (sub_no_match _ _ _ (tagged_no_match post Hpost)). reflexivity.
Qed.

End Tagged.

(** ** Stripping blocks *)

Section Stripping.

Lemma save_delimiters : angle_led SAVE_OPEN = true ∧ angle_led SAVE_CLOSE = true.
Proof. split; reflexivity. Qed.

Lemma update_delimiters :
  angle_led UPDATE_OPEN = true ∧ angle_led UPDATE_CLOSE = true.
Proof. split; reflexivity. Qed.

Lemma sub_blocks_removed (op cl : list N) :
  angle_led op = true →
  ∀ text, blocks_removed op cl text (sub (match_tagged op cl) [] text).
Proof.
  intros Hop text.
  remember (length text) as n eqn:Hn. revert text Hn.
  induction n as [n IH] using lt_wf_ind. intros text ->.
  rewrite (sub_unfold _ (tagged_sound op cl Hop)).
  destruct (search (match_tagged op cl) text) as [[[pre g] rest]|] eqn:Hs.
  - pose proof (search_shrinks _ (tagged_sound op cl Hop) _ _ _ _ Hs) as Hlt.
    apply search_Some in Hs as (mid & -> & Hmid & _).
    apply tagged_Some in Hmid as (o & c & -> & Ho & Hc).
    cbn [app]. apply removed_block; [exact Ho|exact Hc|].
    apply (IH (length rest)); [exact Hlt|reflexivity].
  - apply removed_none. exact Hs.
Qed.

(** The cleaned text of a parser that found a block. *)
Lemma parse_save_tag_cleaned (now text : list N) (t : Db.table)
  (pre g rest cleaned : list N) (item : option Db.NewsItem) :
  search save_pattern text = Some (pre, g, rest) →
  (_parse_save_tag now text t).2 = Py.Return (cleaned, item) →
  cleaned = strip (sub save_pattern [] text).
Proof.
  unfold _parse_save_tag. intros ->.
  destruct (negb _); cbn [snd]; [congruence|].
  destruct (Db.save_news_item _ _ _ _ _ _) as [t' [saved|e]]; cbn [snd]; congruence.
Qed.

Lemma parse_update_tag_cleaned (text : list N) (t : Db.table)
  (pre g rest cleaned : list N) (item : option Db.NewsItem) :
  search update_pattern text = Some (pre, g, rest) →
  (_parse_update_tag text t).2 = Py.Return (cleaned, item) →
  cleaned = strip (sub update_pattern [] text).
Proof.
  unfold _parse_update_tag. intros ->.
  destruct (negb _); cbn [snd]; [congruence|].
  destruct (Py.int _); cbn [snd]; [|congruence].
  destruct (Db.update_news_item _ _ _ _ _ _) as [t' [saved|e]]; cbn [snd]; congruence.
Qed.

(** What a parser does to the table and which record it hands back depend
    on the group of the first match alone. *)
Lemma parse_save_tag_first_match (now text text' : list N) (t : Db.table)
  (pre pre' g rest rest' : list N) :
  search save_pattern text = Some (pre, g, rest) →
  search save_pattern text' = Some (pre', g, rest') →
  (_parse_save_tag now text' t).1 = (_parse_save_tag now text t).1
  ∧ item_of (_parse_save_tag now text' t).2
    = item_of (_parse_save_tag now text t).2.
Proof.
  unfold _parse_save_tag. intros -> ->.
  destruct (negb _); [done|].
  destruct (Db.save_news_item _ _ _ _ _ _) as [t' [saved|e]]; done.
Qed.

Lemma parse_update_tag_first_match (text text' : list N) (t : Db.table)
  (pre pre' g rest rest' : list N) :
  search update_pattern text = Some (pre, g, rest) →
  search update_pattern text' = Some (pre', g, rest') →
  (_parse_update_tag text' t).1 = (_parse_update_tag text t).1
  ∧ item_of (_parse_update_tag text' t).2
    = item_of (_parse_update_tag text t).2.
Proof.
  unfold _parse_update_tag. intros -> ->.
  destruct (negb _); [done|].
  destruct (Py.int _); [|done].
  destruct (Db.update_news_item _ _ _ _ _ _) as [t' [saved|e]]; done.
Qed.

(** C5, as the code has it: when a block is matched, the text a parser
    returns is the input with every block span of its variant cut out and
    everything else kept in place, and then trimmed of white space at BOTH
    ends (so leading white space before the first block is lost as well);
    what is written to the table and which record comes back depend only on
    the group of the first match. *)
Theorem strip_removes_block_spans (now text : list N) (t : Db.table)
  (pre g rest : list N) :
  (search save_pattern text = Some (pre, g, rest) →
     blocks_removed SAVE_OPEN SAVE_CLOSE text (pre ++ sub save_pattern [] rest)
     ∧ (∀ cleaned item,
          (_parse_save_tag now text t).2 = Py.Return (cleaned, item) →
          cleaned = strip (pre ++ sub save_pattern [] rest))
     ∧ (∀ text' pre' rest',
          search save_pattern text' = Some (pre', g, rest') →
          (_parse_save_tag now text' t).1 = (_parse_save_tag now text t).1
          ∧ item_of (_parse_save_tag now text' t).2
            = item_of (_parse_save_tag now text t).2))
  ∧ (search update_pattern text = Some (pre, g, rest) →
     blocks_removed UPDATE_OPEN UPDATE_CLOSE text
       (pre ++ sub update_pattern [] rest)
     ∧ (∀ cleaned item,
          (_parse_update_tag text t).2 = Py.Return (cleaned, item) →
          cleaned = strip (pre ++ sub update_pattern [] rest))
     ∧ (∀ text' pre' rest',
          search update_pattern text' = Some (pre', g, rest') →
          (_parse_update_tag text' t).1 = (_parse_update_tag text t).1
          ∧ item_of (_parse_update_tag text' t).2
            = item_of (_parse_update_tag text t).2)).
Proof.
  split; intros Hs.
  - assert (sub save_pattern [] text = pre ++ sub save_pattern [] rest) as Hsub.
    { unfold save_pattern in *.
      rewrite (sub_unfold _ (tagged_sound _ _ (proj1 save_delimiters))) at 1.
      rewrite Hs. reflexivity. }
    rewrite <- Hsub. split; [|split].
    + apply sub_blocks_removed, save_delimiters.
    + intros cleaned item. apply (parse_save_tag_cleaned _ _ _ _ _ _ _ _ Hs).
    + intros text' pre' rest' Hs'.
      apply (parse_save_tag_first_match _ _ _ _ _ _ _ _ _ Hs Hs').
  - assert (sub update_pattern [] text = pre ++ sub update_pattern [] rest)
      as Hsub.
    { unfold update_pattern in *.
      rewrite (sub_unfold _ (tagged_sound _ _ (proj1 update_delimiters))) at 1.
      rewrite Hs. reflexivity. }
    rewrite <- Hsub. split; [|split].
    + apply sub_blocks_removed, update_delimiters.
    + intros cleaned item. apply (parse_update_tag_cleaned _ _ _ _ _ _ _ Hs).
    + intros text' pre' rest' Hs'.
      apply (parse_update_tag_first_match _ _ _ _ _ _ _ _ Hs Hs').
Qed.

End Stripping.

(** ** Well-formed save blocks *)

Section Occurrences.

Context (p : list N) (Hp : angle_led p = true).

Lemma occurs_cons (c : N) (s : list N) :
  match_literal p (c :: s) = None → occurs p (c :: s) = occurs p s.
Proof.
  unfold occurs. cbn [match_lazy_until]. intros ->.
  destruct (match_lazy_until p s) as [[g rest]|]; reflexivity.
Qed.

Lemma occurs_nil : occurs p [] = false.
Proof using Hp.
  destruct (angle_led_head p Hp) as [p' ->]. reflexivity.
Qed.

(** No match starts in a run without [<]. *)
Lemma occurs_plain_app (a b : list N) :
  plain a = true → occurs p (a ++ b) = occurs p b.
Proof using Hp.
  induction a as [|c a IH]; [reflexivity|]. cbn [plain forallb app].
  intros [Hc Ha]%andb_true_iff. rewrite occurs_cons; [exact (IH Ha)|].
  apply angle_led_needs_lt; [exact Hp|].
  intros ->. discriminate.
Qed.

Lemma occurs_plain (a : list N) : plain a = true → occurs p a = false.
Proof using Hp.
  intros Ha. rewrite <- (app_nil_r a), (occurs_plain_app a [] Ha).
  apply occurs_nil.
Qed.

Lemma clash_no_match (T R : list N) :
  clash p T = true → match_literal p (T ++ R) = None.
Proof.
  clear Hp. revert T. induction p as [|pc p' IH]; intros T; [destruct T; discriminate|].
  destruct T as [|c T]; [discriminate|]. cbn.
  destruct (literal_ignorecase pc c); [|reflexivity].
  cbn. apply IH.
Qed.

Lemma angle_led_plain_tail (T : list N) :
  angle_led T = true → ∃ T', T = 60%N :: T' ∧ plain T' = true.
Proof.
  destruct T as [|c T']; [discriminate|]. cbn.
  intros [->%N.eqb_eq Hall]%andb_true_iff. exists T'. split; [reflexivity|].
  unfold plain. rewrite forallb_forall in Hall |- *.
  intros x Hx. specialize (Hall x Hx).
  destruct (N.eqb_spec x 60) as [->|]; [|reflexivity].
  rewrite literal_ignorecase_refl in Hall. discriminate.
Qed.

(** Nor does one start in another tag. *)
Lemma occurs_tag_app (T R : list N) :
  angle_led T = true → clash p T = true → occurs p (T ++ R) = occurs p R.
Proof using Hp.
  intros (T' & -> & HT')%angle_led_plain_tail Hclash.
  cbn [app]. rewrite occurs_cons.
  - apply occurs_plain_app, HT'.
  - apply (clash_no_match (60%N :: T') R Hclash).
Qed.

End Occurrences.

Ltac walk :=
  repeat first
    [ rewrite occurs_plain_app by (reflexivity || assumption)
    | rewrite occurs_tag_app by reflexivity ];
  first [ reflexivity | apply occurs_plain; (reflexivity || assumption) ].

Section WellFormedBlock.

Context (b : save_block) (Hwf : well_formed b = true).

Lemma well_formed_plain :
  plain (gap0 b) = true ∧ plain (b_name b) = true ∧ plain (gap1 b) = true
  ∧ plain (b_url b) = true ∧ plain (gap2 b) = true
  ∧ plain (b_reason b) = true ∧ plain (gap3 b) = true
  ∧ plain (b_agreed_text b) = true ∧ plain (gap4 b) = true.
Proof using Hwf.
  unfold well_formed in Hwf. apply andb_true_iff in Hwf as [Hplain _].
  cbn [forallb] in Hplain. repeat (apply andb_true_iff in Hplain as [? Hplain]).
  done.
Qed.

Lemma body_no_closing_delimiter (cl : list N) :
  angle_led cl = true →
  clash cl (open_tag (lit "name")) = true →
  clash cl (close_tag (lit "name")) = true →
  clash cl (open_tag (lit "url")) = true →
  clash cl (close_tag (lit "url")) = true →
  clash cl (open_tag (lit "reason")) = true →
  clash cl (close_tag (lit "reason")) = true →
  clash cl (open_tag (lit "agreed_text")) = true →
  clash cl (close_tag (lit "agreed_text")) = true →
  occurs cl (body b) = false.
Proof using Hwf.
  intros Hcl H1 H2 H3 H4 H5 H6 H7 H8.
  destruct well_formed_plain as (?&?&?&?&?&?&?&?&?).
  unfold body, element. rewrite <- !app_assoc.
  repeat first
    [ rewrite (occurs_plain_app cl Hcl) by assumption
    | rewrite (occurs_tag_app cl Hcl) by (reflexivity || assumption) ].
  apply (occurs_plain cl Hcl). assumption.
Qed.

(** [extract] finds a sub-field that no earlier text spells the tag of. *)
Lemma extract_element (tag pre v post : list N) :
  angle_led (open_tag tag) = true → angle_led (close_tag tag) = true →
  occurs (open_tag tag) pre = false → occurs (close_tag tag) v = false →
  extract (pre ++ element tag v ++ post) tag = strip v.
Proof.
  intros Hop Hcl Hpre Hv. unfold extract.
  change (lit "<" ++ tag ++ lit ">") with (open_tag tag).
  change (lit "</" ++ tag ++ lit ">") with (close_tag tag).
  unfold element. rewrite <- !app_assoc.
  rewrite (tagged_first_block _ _ Hop Hcl pre _ v _ post Hpre Hv
             (spelled_self _) (spelled_self _)).
  reflexivity.
Qed.

Lemma extract_fields :
  extract (body b) (lit "name") = strip (b_name b)
  ∧ extract (body b) (lit "url") = strip (b_url b)
  ∧ extract (body b) (lit "reason") = strip (b_reason b)
  ∧ extract (body b) (lit "agreed_text") = strip (b_agreed_text b).
Proof using Hwf.
  destruct well_formed_plain as (?&?&?&?&?&?&?&?&?).
  unfold body. repeat split.
  - apply extract_element; try reflexivity; apply occurs_plain; done.
  - rewrite (app_assoc (gap0 b)), (app_assoc _ (gap1 b)).
    apply extract_element; try reflexivity; [|apply occurs_plain; done].
    unfold element. rewrite <- !app_assoc. walk.
  - rewrite (app_assoc (gap0 b)), (app_assoc _ (gap1 b)),
      (app_assoc _ (element _ (b_url b))), (app_assoc _ (gap2 b)).
    apply extract_element; try reflexivity; [|apply occurs_plain; done].
    unfold element. rewrite <- !app_assoc. walk.
  - rewrite (app_assoc (gap0 b)), (app_assoc _ (gap1 b)),
      (app_assoc _ (element _ (b_url b))), (app_assoc _ (gap2 b)),
      (app_assoc _ (element _ (b_reason b))), (app_assoc _ (gap3 b)).
    apply extract_element; try reflexivity; [|apply occurs_plain; done].
    unfold element. rewrite <- !app_assoc. walk.
Qed.

End WellFormedBlock.

(** ** What the parsers do with a block *)

Section Extraction.

Context (now : list N) (t : Db.table).

(** The text after the blocks are cut out, when the first block is the only
    delimiter in the text. *)
Lemma sub_after_first_match (op cl text pre g rest : list N) :
  angle_led op = true →
  search (match_tagged op cl) text = Some (pre, g, rest) →
  sub (match_tagged op cl) [] text = pre ++ sub (match_tagged op cl) [] rest
  ∧ (delimiter_free op cl (pre ++ rest) = true →
     sub (match_tagged op cl) [] rest = rest
     ∧ delimiter_free op cl (strip (pre ++ rest)) = true).
Proof.
  intros Hop Hs. split.
  - rewrite (sub_unfold _ (tagged_sound op cl Hop)) at 1. rewrite Hs. reflexivity.
  - intros Hfree. split; [|apply delimiter_free_strip, Hfree].
    apply andb_true_iff in Hfree as [Hfree _].
    apply negb_true_iff, occurs_app in Hfree as [_ Hrest].
    apply sub_no_match, tagged_no_match, Hrest.
Qed.

(** A well-formed block with no opening delimiter before it is the first
    match of the save pattern. *)
Lemma well_formed_first_match (pre post o c : list N) (b : save_block) :
  spelled SAVE_OPEN o → spelled SAVE_CLOSE c →
  well_formed b = true →
  occurs SAVE_OPEN pre = false →
  search save_pattern (pre ++ o ++ body b ++ c ++ post)
  = Some (pre, body b, post).
Proof.
  intros Ho Hc Hwf Hpre.
  apply (tagged_first_block SAVE_OPEN SAVE_CLOSE eq_refl eq_refl); try done.
  apply body_no_closing_delimiter; done.
Qed.

(** What [_parse_save_tag] does with such a text. *)
Lemma parse_save_tag_well_formed (pre post o c : list N) (b : save_block) :
  spelled SAVE_OPEN o → spelled SAVE_CLOSE c →
  well_formed b = true →
  occurs SAVE_OPEN pre = false →
  _parse_save_tag now (pre ++ o ++ body b ++ c ++ post) t
  = ({| Db.rows := <[Db.id (saved_row now b t) := saved_row now b t]> (Db.rows t);
        Db.last_rowid := Db.id (saved_row now b t) |},
     Py.Return (strip (pre ++ sub save_pattern [] post),
                Some (saved_row now b t))).
Proof.
  intros Ho Hc Hwf Hpre.
  pose proof (well_formed_first_match pre post o c b Ho Hc Hwf Hpre) as Hs.
  destruct (sub_after_first_match SAVE_OPEN SAVE_CLOSE _ _ _ _ eq_refl Hs)
    as [Hsub _].
  fold save_pattern in Hsub.
  unfold _parse_save_tag. rewrite Hs, Hsub.
  destruct (extract_fields b Hwf) as (-> & -> & -> & ->).
  pose proof Hwf as [_ ->]%andb_true_iff. cbn [negb].
  unfold Db.save_news_item. cbn [Db.rows].
  rewrite lookup_insert_eq, !strip_idem. reflexivity.
Qed.

(** C1, as the code has it: when the first save block of a text is well
    formed (its values and the text between its sub-fields hold no [<], no
    value is empty after trimming), [_parse_save_tag] inserts a row whose
    four content fields are the trimmed values and returns it; the cleaned
    text is the text before the block followed by the stripped text after
    it, trimmed.  It holds no delimiter when the text around the block holds
    none; a delimiter that stands outside a block stays. *)
Theorem save_block_extraction (pre post o c : list N) (b : save_block) :
  spelled SAVE_OPEN o → spelled SAVE_CLOSE c →
  well_formed b = true →
  occurs SAVE_OPEN pre = false →
  _parse_save_tag now (pre ++ o ++ body b ++ c ++ post) t
  = ({| Db.rows := <[Db.id (saved_row now b t) := saved_row now b t]> (Db.rows t);
        Db.last_rowid := Db.id (saved_row now b t) |},
     Py.Return (strip (pre ++ sub save_pattern [] post),
                Some (saved_row now b t)))
  ∧ Db.rows (_parse_save_tag now (pre ++ o ++ body b ++ c ++ post) t).1
      !! Db.id (saved_row now b t) = Some (saved_row now b t)
  ∧ (delimiter_free SAVE_OPEN SAVE_CLOSE (pre ++ post) = true →
     strip (pre ++ sub save_pattern [] post) = strip (pre ++ post)
     ∧ delimiter_free SAVE_OPEN SAVE_CLOSE (strip (pre ++ post)) = true).
Proof.
  intros Ho Hc Hwf Hpre.
  rewrite (parse_save_tag_well_formed pre post o c b Ho Hc Hwf Hpre).
  split; [reflexivity|]. split; [apply lookup_insert_eq|].
  intros Hfree.
  pose proof (well_formed_first_match pre post o c b Ho Hc Hwf Hpre) as Hs.
  destruct (sub_after_first_match SAVE_OPEN SAVE_CLOSE _ _ _ _ eq_refl Hs)
    as [_ Hclean].
  fold save_pattern in Hclean.
  destruct (Hclean Hfree) as [-> Hdone]. done.
Qed.

(** White space holds no [<] and trims to nothing. *)
Lemma space_plain (v : list N) : forallb isspace v = true → plain v = true.
Proof.
  unfold plain. rewrite !forallb_forall. intros H x Hx.
  specialize (H x Hx). destruct (N.eqb_spec x 60) as [->|]; [|reflexivity].
  discriminate.
Qed.

Lemma strip_space (v : list N) : forallb isspace v = true → strip v = [].
Proof.
  intros Hv. unfold strip.
  replace (lstrip v) with (@nil N); [reflexivity|].
  induction v as [|ch v IH]; [reflexivity|]. cbn [forallb lstrip] in *.
  apply andb_true_iff in Hv as [-> Hv]. exact (IH Hv).
Qed.

(** The value that [extract] returns for the first element of a tag. *)
Lemma extract_first (tag pre o v c post : list N) :
  angle_led (open_tag tag) = true → angle_led (close_tag tag) = true →
  spelled (open_tag tag) o → spelled (close_tag tag) c →
  occurs (open_tag tag) pre = false → occurs (close_tag tag) v = false →
  extract (pre ++ o ++ v ++ c ++ post) tag = strip v.
Proof.
  intros Hop Hcl Ho Hc Hpre Hv. unfold extract.
  change (lit "<" ++ tag ++ lit ">") with (open_tag tag).
  change (lit "</" ++ tag ++ lit ">") with (close_tag tag).
  rewrite (tagged_first_block _ _ Hop Hcl pre o v c post Hpre Hv Ho Hc).
  reflexivity.
Qed.

(** [extract] returns the empty string for a missing or empty sub-field. *)
Lemma extract_blank (tag block : list N) :
  angle_led (open_tag tag) = true → angle_led (close_tag tag) = true →
  field_blank tag block → extract block tag = [].
Proof.
  intros Hop Hcl [Hmissing|(pre & o & v & c & post & -> & Ho & Hc & Hpre & Hv)].
  - unfold extract.
    change (lit "<" ++ tag ++ lit ">") with (open_tag tag).
    change (lit "</" ++ tag ++ lit ">") with (close_tag tag).
    replace (search (match_tagged (open_tag tag) (close_tag tag)) block)
      with (@None (list N * list N * list N)); [reflexivity|].
    symmetry. apply search_None. intros a b ->.
    destruct (match_tagged (open_tag tag) (close_tag tag) b)
      as [[v rest]|] eqn:Hm; [|reflexivity].
    destruct (tagged_Some _ _ _ _ _ Hm) as (o & c & -> & Ho & Hc).
    destruct (Hmissing a o v c rest eq_refl Ho Hc).
  - rewrite (extract_first tag pre o v c post Hop Hcl Ho Hc Hpre).
    + apply strip_space, Hv.
    + apply (occurs_plain _ Hcl), space_plain, Hv.
Qed.

Lemma field_tags (tag : list N) :
  tag ∈ update_fields →
  angle_led (open_tag tag) = true ∧ angle_led (close_tag tag) = true.
Proof.
  unfold update_fields, save_fields. rewrite !elem_of_cons.
  intros [->|[->|[->|[->|[->|[]%elem_of_nil]]]]]; split; reflexivity.
Qed.

(** One blank sub-field makes the parsers' test of the sub-fields fail. *)
Lemma blank_field_fails (fields : list (list N)) (tag block : list N) :
  tag ∈ fields → extract block tag = [] →
  all_truthy (List.map (extract block) fields) = false.
Proof.
  intros Htag Hblank.
  destruct (all_truthy (List.map (extract block) fields)) eqn:Hall;
    [|reflexivity].
  unfold all_truthy in Hall. rewrite forallb_forall in Hall.
  specialize (Hall (extract block tag)
                (in_map _ _ _ (proj1 (list_elem_of_In _ _) Htag))).
  rewrite Hblank in Hall. discriminate.
Qed.

(** C2, as the code has it: when the first block of a variant has a
    required sub-field missing (no complete element of its tag) or empty
    (the first element of its tag holds white space only), or the id of an
    update block is no integer, the table is left as it was and no record
    is returned; the cleaned text is the text before the block followed by
    the stripped text after it, trimmed.  It holds no delimiter of the
    variant when the text around the block holds none. *)
Theorem incomplete_block_discarded (pre o g c post : list N) :
  (spelled SAVE_OPEN o → spelled SAVE_CLOSE c →
   occurs SAVE_OPEN pre = false → occurs SAVE_CLOSE g = false →
   (∃ tag, tag ∈ save_fields ∧ field_blank tag g) →
   _parse_save_tag now (pre ++ o ++ g ++ c ++ post) t
   = (t, Py.Return (strip (pre ++ sub save_pattern [] post), None))
   ∧ (delimiter_free SAVE_OPEN SAVE_CLOSE (pre ++ post) = true →
      strip (pre ++ sub save_pattern [] post) = strip (pre ++ post)
      ∧ delimiter_free SAVE_OPEN SAVE_CLOSE (strip (pre ++ post)) = true))
  ∧ (spelled UPDATE_OPEN o → spelled UPDATE_CLOSE c →
     occurs UPDATE_OPEN pre = false → occurs UPDATE_CLOSE g = false →
     (∃ tag, tag ∈ update_fields ∧ field_blank tag g) ∨ id_not_integer g →
     _parse_update_tag (pre ++ o ++ g ++ c ++ post) t
     = (t, Py.Return (strip (pre ++ sub update_pattern [] post), None))
     ∧ (delimiter_free UPDATE_OPEN UPDATE_CLOSE (pre ++ post) = true →
        strip (pre ++ sub update_pattern [] post) = strip (pre ++ post)
        ∧ delimiter_free UPDATE_OPEN UPDATE_CLOSE (strip (pre ++ post))
          = true)).
Proof.
  split; intros Ho Hc Hpre Hg Hbad.
  - pose proof (tagged_first_block SAVE_OPEN SAVE_CLOSE eq_refl eq_refl
                  pre o g c post Hpre Hg Ho Hc) as Hs.
    fold save_pattern in Hs.
    destruct (sub_after_first_match SAVE_OPEN SAVE_CLOSE _ _ _ _ eq_refl Hs)
      as [Hsub Hfree].
    fold save_pattern in Hsub, Hfree.
    split.
    + destruct Hbad as (tag & Htag & Hblank).
      assert (Hfields : tag ∈ update_fields) by (right; exact Htag).
      destruct (field_tags tag Hfields) as [Hop Hcl].
      pose proof (blank_field_fails save_fields tag g Htag
                    (extract_blank tag g Hop Hcl Hblank)) as Hall.
      unfold _parse_save_tag. rewrite Hs, Hsub.
      change [extract g (lit "name"); extract g (lit "url");
              extract g (lit "reason"); extract g (lit "agreed_text")]
        with (List.map (extract g) save_fields).
      rewrite Hall. reflexivity.
    + intros Hfree'. destruct (Hfree Hfree') as [-> Hclean]. done.
  - pose proof (tagged_first_block UPDATE_OPEN UPDATE_CLOSE eq_refl eq_refl
                  pre o g c post Hpre Hg Ho Hc) as Hs.
    fold update_pattern in Hs.
    destruct (sub_after_first_match UPDATE_OPEN UPDATE_CLOSE _ _ _ _ eq_refl Hs)
      as [Hsub Hfree].
    fold update_pattern in Hsub, Hfree.
    split.
    + unfold _parse_update_tag. rewrite Hs, Hsub.
      change [extract g (lit "id"); extract g (lit "name");
              extract g (lit "url"); extract g (lit "reason");
              extract g (lit "agreed_text")]
        with (List.map (extract g) update_fields).
      destruct Hbad as [(tag & Htag & Hblank)|
                        (p0 & o0 & v & c0 & q0 & -> & Ho0 & Hc0 & Hp0 & Hv
                         & Hint)].
      * destruct (field_tags tag Htag) as [Hop Hcl].
        rewrite (blank_field_fails update_fields tag g Htag
                   (extract_blank tag g Hop Hcl Hblank)).
        reflexivity.
      * destruct (all_truthy _); [|reflexivity]. cbn [negb].
        rewrite (extract_first (lit "id") p0 o0 v c0 q0 eq_refl eq_refl
                   Ho0 Hc0 Hp0 Hv), Hint.
        reflexivity.
    + intros Hfree'. destruct (Hfree Hfree') as [-> Hclean]. done.
Qed.

End Extraction.

Lemma save_block_extraction_witness :
  _parse_save_tag noon ada_reply Db.empty
  = ({| Db.rows := <[1%Z := saved_row noon ada Db.empty]> ∅;
        Db.last_rowid := 1 |},
     Py.Return (strip (lit "Saving that now. "
                       ++ sub save_pattern [] (lit " Saved! Another one?")),
                Some (saved_row noon ada Db.empty)))
  ∧ Db.rows (_parse_save_tag noon ada_reply Db.empty).1 !! 1%Z
    = Some (saved_row noon ada Db.empty)
  ∧ (delimiter_free SAVE_OPEN SAVE_CLOSE
       (lit "Saving that now. " ++ lit " Saved! Another one?") = true →
     strip (lit "Saving that now. "
            ++ sub save_pattern [] (lit " Saved! Another one?"))
     = strip (lit "Saving that now. " ++ lit " Saved! Another one?")
     ∧ delimiter_free SAVE_OPEN SAVE_CLOSE
         (strip (lit "Saving that now. " ++ lit " Saved! Another one?"))
       = true).
Proof.
  apply (save_block_extraction noon Db.empty (lit "Saving that now. ")
           (lit " Saved! Another one?") SAVE_OPEN SAVE_CLOSE ada);
    vm_compute; reflexivity.
Defined.

(** C1 as stated fails: a well-formed block is saved, yet the cleaned text
    still holds the closing delimiter that followed the block. *)
Lemma save_block_stray_delimiter :
  well_formed ada = true
  ∧ (_parse_save_tag noon stray_reply Db.empty).2
    = Py.Return (SAVE_CLOSE, Some (saved_row noon ada Db.empty))
  ∧ delimiter_free SAVE_OPEN SAVE_CLOSE SAVE_CLOSE = false.
Proof. vm_compute. repeat split. Qed.

(** A block in which the opening tag of a sub-field does not occur misses
    the sub-field. *)
Lemma no_open_tag_missing (tag block : list N) :
  occurs (open_tag tag) block = false → field_missing tag block.
Proof.
  intros Hnone pre o v c post -> Ho _.
  pose proof (proj1 (occurs_false _ _) Hnone pre (o ++ v ++ c ++ post) eq_refl)
    as Hhere.
  rewrite (spelled_app _ _ _ Ho) in Hhere. discriminate.
Qed.

Lemma incomplete_block_discarded_witness :
  (_parse_save_tag noon partial_reply Db.empty
   = (Db.empty,
      Py.Return (strip ([] ++ sub save_pattern []
                          (lit " I left out the rest of <SAVE_ITEM>.")),
                 None)))
  ∧ (_parse_save_tag noon
       (lit "<save_item><name>Ada</name><URL> </url></Save_Item>") one_item
     = (one_item, Py.Return (strip ([] ++ sub save_pattern [] []), None)))
  ∧ (_parse_update_tag bad_id_reply Db.empty
     = (Db.empty,
        Py.Return (strip (lit "Updating. " ++ sub update_pattern [] []),
                   None))).
Proof.
  split; [|split].
  - apply (proj1 (incomplete_block_discarded noon Db.empty []
                    SAVE_OPEN (lit "<name>Ada</name>") SAVE_CLOSE
                    (lit " I left out the rest of <SAVE_ITEM>."))
             eq_refl eq_refl eq_refl eq_refl).
    exists (lit "url"). split; [unfold save_fields; set_solver|].
    left. apply no_open_tag_missing. reflexivity.
  - apply (proj1 (incomplete_block_discarded noon one_item []
                    (lit "<save_item>") (lit "<name>Ada</name><URL> </url>")
                    (lit "</Save_Item>") [])
             eq_refl eq_refl eq_refl eq_refl).
    exists (lit "url"). split; [unfold save_fields; set_solver|].
    right. exists (lit "<name>Ada</name>"), (lit "<URL>"), (lit " "),
      (lit "</url>"), []. repeat split.
  - apply (proj2 (incomplete_block_discarded noon Db.empty (lit "Updating. ")
                    UPDATE_OPEN
                    (lit "<id>seven</id><name>Ada</name><url>example.com/x</url><reason>typo</reason><agreed_text>**Fixed.** Done.</agreed_text>")
                    UPDATE_CLOSE [])
             eq_refl eq_refl eq_refl eq_refl).
    right. exists [], (lit "<id>"), (lit "seven"), (lit "</id>"),
      (lit "<name>Ada</name><url>example.com/x</url><reason>typo</reason><agreed_text>**Fixed.** Done.</agreed_text>").
    repeat split.
Defined.

(** C2 as stated fails: the incomplete block is discarded without a write,
    yet the cleaned text still holds the opening delimiter that the reply
    names after the block. *)
Lemma incomplete_block_stray_delimiter :
  _parse_save_tag noon partial_reply Db.empty
  = (Db.empty,
     Py.Return (lit "I left out the rest of <SAVE_ITEM>.", None))
  ∧ delimiter_free SAVE_OPEN SAVE_CLOSE
      (lit "I left out the rest of <SAVE_ITEM>.") = false.
Proof. vm_compute. repeat split. Qed.

Lemma strip_removes_block_spans_witness :
  blocks_removed SAVE_OPEN SAVE_CLOSE padded_reply
    (lit "  hi " ++ sub save_pattern [] [])
  ∧ (∀ cleaned item,
       (_parse_save_tag noon padded_reply Db.empty).2
       = Py.Return (cleaned, item) →
       cleaned = strip (lit "  hi " ++ sub save_pattern [] []))
  ∧ (∀ text' pre' rest',
       search save_pattern text' = Some (pre', [], rest') →
       (_parse_save_tag noon text' Db.empty).1
       = (_parse_save_tag noon padded_reply Db.empty).1
       ∧ item_of (_parse_save_tag noon text' Db.empty).2
         = item_of (_parse_save_tag noon padded_reply Db.empty).2).
Proof.
  apply (proj1 (strip_removes_block_spans noon padded_reply Db.empty
                  (lit "  hi ") [] [])).
  vm_compute. reflexivity.
Defined.

(** C5 as stated fails: the white space before [hi] is lost, although it
    stands before the first block; trailing normalisation alone would have
    kept it. *)
Lemma strip_drops_leading_whitespace :
  search save_pattern padded_reply = Some (lit "  hi ", [], [])
  ∧ (_parse_save_tag noon padded_reply Db.empty).2
    = Py.Return (lit "hi", None)
  ∧ rstrip (sub save_pattern [] padded_reply) = lit "  hi"
  ∧ lit "hi" ≠ lit "  hi".
Proof. vm_compute. repeat split. discriminate. Qed.
(** ** Dash normalisation *)

Section Dashes.

Lemma match_spaced_sound (d : N) : sound (match_spaced d).
Proof.
  intros s [] rest. unfold match_spaced.
  destruct (lstrip_suffix s) as [ws Hs].
  destruct (lstrip s) as [|c r]; [discriminate|].
  destruct (c =? d)%N; [|discriminate]. intros [= <-].
  destruct (lstrip_suffix r) as [ws' Hr].
  exists (ws ++ c :: ws'). split; [destruct ws; done|].
  rewrite Hs, Hr at 1. rewrite <- app_assoc. reflexivity.
Qed.

Lemma match_comma_pair_Some (s rest : list N) (g : unit) :
  match_comma_pair s = Some (g, rest) →
  ∃ c ws c2, s = c :: ws ++ c2 :: rest.
Proof.
  unfold match_comma_pair.
  destruct s as [|c r]; [discriminate|].
  destruct (c =? 44)%N; [|discriminate].
  destruct (lstrip_suffix r) as [ws Hr].
  destruct (lstrip r) as [|c2 r2]; [discriminate|].
  destruct (c2 =? 44)%N; [|discriminate]. intros [= _ <-].
  exists c, ws, c2. rewrite Hr at 1. reflexivity.
Qed.

Lemma match_comma_pair_sound : sound match_comma_pair.
Proof.
  intros s g rest (c & ws & c2 & ->)%match_comma_pair_Some.
  exists (c :: ws ++ [c2]). split; [done|].
  cbn. rewrite <- app_assoc. reflexivity.
Qed.

(** [sub] brings in no character beyond those of the replacement. *)
Lemma sub_elem {A} (m : list N → option (A * list N)) (repl : list N) :
  sound m →
  ∀ s x, x ∈ sub m repl s → x ∈ s ∨ x ∈ repl.
Proof.
  intros Hm s. remember (length s) as n eqn:Hn. revert s Hn.
  induction n as [n IH] using lt_wf_ind. intros s -> x.
  rewrite (sub_unfold m Hm).
  destruct (search m s) as [[[pre g] rest]|] eqn:Hs; [|auto].
  pose proof (search_shrinks m Hm _ _ _ _ Hs) as Hlt.
  apply search_Some in Hs as (mid & -> & Hmid & _).
  destruct (Hm _ _ _ Hmid) as (mid' & _ & ->).
  rewrite !elem_of_app.
  intros [?|[?|Hin]]; [auto..|].
  destruct (IH _ Hlt rest eq_refl x Hin); auto.
Qed.

Lemma match_spaced_here (d : N) (s : list N) :
  isspace d = false → match_spaced d (d :: s) = Some (tt, lstrip s).
Proof.
  intros Hd. unfold match_spaced. cbn [lstrip]. rewrite Hd, N.eqb_refl.
  reflexivity.
Qed.

Lemma search_spaced_absent (d : N) (s : list N) :
  d ∉ s → search (match_spaced d) s = None.
Proof.
  intros Hd. apply search_None. intros a b ->. unfold match_spaced.
  destruct (lstrip_suffix b) as [ws Hb].
  destruct (lstrip b) as [|c r]; [reflexivity|].
  destruct (N.eqb_spec c d) as [->|]; [|reflexivity].
  exfalso. apply Hd. rewrite Hb, !elem_of_app. right. right. left.
Qed.

(** After [sub] with the pattern [\s*d\s*] no [d] is left. *)
Lemma sub_spaced_removes (d : N) (repl : list N) :
  isspace d = false → d ∉ repl →
  ∀ s, d ∉ sub (match_spaced d) repl s.
Proof.
  intros Hd Hrepl s. remember (length s) as n eqn:Hn. revert s Hn.
  induction n as [n IH] using lt_wf_ind. intros s ->.
  rewrite (sub_unfold _ (match_spaced_sound d)).
  destruct (search (match_spaced d) s) as [[[pre g] rest]|] eqn:Hs.
  - pose proof (search_shrinks _ (match_spaced_sound d) _ _ _ _ Hs) as Hlt.
    apply search_Some in Hs as (mid & -> & _ & Hearly).
    rewrite !elem_of_app. intros [Hin|[Hin|Hin]].
    + apply list_elem_of_split in Hin as (a & b & ->).
      specialize (Hearly a (d :: b) eq_refl ltac:(done)).
      cbn [app] in Hearly. rewrite match_spaced_here in Hearly by exact Hd.
      discriminate.
    + exact (Hrepl Hin).
    + exact (IH _ Hlt rest eq_refl Hin).
  - intros Hin. apply list_elem_of_split in Hin as (a & b & ->).
    pose proof (proj1 (search_None _ _) Hs a (d :: b) eq_refl) as Hhere.
    rewrite match_spaced_here in Hhere by exact Hd. discriminate.
Qed.

Lemma strip_dashes_no_dash (s : list N) :
  (EM_DASH ∉ _strip_dashes s) ∧ (EN_DASH ∉ _strip_dashes s).
Proof.
  unfold _strip_dashes.
  set (t1 := sub (match_spaced EM_DASH) (lit ", ") s).
  set (t2 := sub (match_spaced EN_DASH) (lit ", ") t1).
  assert (EM_DASH ∉ t1) as H1.
  { apply sub_spaced_removes; [reflexivity|]. intros Hin.
    repeat (apply elem_of_cons in Hin as [Hin|Hin]; [discriminate|]).
    inversion Hin. }
  assert (EN_DASH ∉ t2) as H2.
  { apply sub_spaced_removes; [reflexivity|]. intros Hin.
    repeat (apply elem_of_cons in Hin as [Hin|Hin]; [discriminate|]).
    inversion Hin. }
  assert (EM_DASH ∉ t2) as H3.
  { intros [Hin|Hin]%(sub_elem _ _ (match_spaced_sound EN_DASH)); [done|].
    repeat (apply elem_of_cons in Hin as [Hin|Hin]; [discriminate|]).
    inversion Hin. }
  split; intros [Hin|Hin]%(sub_elem _ _ match_comma_pair_sound); try done;
    repeat (apply elem_of_cons in Hin as [Hin|Hin]; [discriminate|]);
    inversion Hin.
Qed.

(** The comma step never makes a text longer. *)
Lemma sub_comma_pair_length (s : list N) :
  length (sub match_comma_pair (lit ",") s) ≤ length s.
Proof.
  remember (length s) as n eqn:Hn. revert s Hn.
  induction n as [n IH] using lt_wf_ind. intros s ->.
  rewrite (sub_unfold _ match_comma_pair_sound).
  destruct (search match_comma_pair s) as [[[pre g] rest]|] eqn:Hs;
    [|reflexivity].
  pose proof (search_shrinks _ match_comma_pair_sound _ _ _ _ Hs) as Hlt.
  apply search_Some in Hs as (mid & -> & Hmid & _).
  specialize (IH _ Hlt rest eq_refl).
  apply match_comma_pair_Some in Hmid as (c & ws & c2 & ->).
  change (lit ",") with [44%N] in *.
  rewrite !length_app. cbn [length]. rewrite !length_app. cbn [length]. lia.
Qed.

(** The normalised text holds no em or en dash, so a second pass redoes
    only the comma step; the second pass changes nothing exactly when the
    first left no comma, optional white space, comma behind. *)
Lemma strip_dashes_second_pass (s : list N) :
  ((EM_DASH ∉ _strip_dashes s) ∧ (EN_DASH ∉ _strip_dashes s))
  ∧ _strip_dashes (_strip_dashes s)
    = sub match_comma_pair (lit ",") (_strip_dashes s)
  ∧ (search match_comma_pair (_strip_dashes s) = None ↔
     _strip_dashes (_strip_dashes s) = _strip_dashes s).
Proof.
  pose proof (strip_dashes_no_dash s) as [Hem Hen].
  assert (_strip_dashes (_strip_dashes s)
          = sub match_comma_pair (lit ",") (_strip_dashes s)) as Hsecond.
  { unfold _strip_dashes at 1.
    rewrite (sub_no_match _ _ _ (search_spaced_absent _ _ Hem)).
    rewrite (sub_no_match _ _ _ (search_spaced_absent _ _ Hen)).
    reflexivity. }
  split; [done|]. split; [exact Hsecond|].
  rewrite Hsecond. split; [apply sub_no_match|].
  rewrite (sub_unfold _ match_comma_pair_sound).
  destruct (search match_comma_pair (_strip_dashes s))
    as [[[pre g] rest]|] eqn:Hs; [|reflexivity].
  intros Heq. exfalso.
  apply search_Some in Hs as (mid & Htext & Hmid & _).
  apply match_comma_pair_Some in Hmid as (c & ws & c2 & ->).
  pose proof (sub_comma_pair_length rest) as Hle.
  apply (f_equal length) in Heq. rewrite Htext in Heq.
  change (lit ",") with [44%N] in *.
  rewrite !length_app in Heq. cbn [length] in Heq.
  rewrite !length_app in Heq. cbn [length] in Heq. lia.
Qed.

End Dashes.

(** C6 at its failing input, three spaced em dashes in a row: the comma
    step, one pass from left to right, leaves the comma pair [, ,] in the
    normalised text, so the text is not stable: a second application
    collapses the pair and gives another text. *)
Theorem strip_dashes_not_idempotent :
  _strip_dashes three_dashes = lit "a, , b"
  ∧ search match_comma_pair (_strip_dashes three_dashes)
    = Some (lit "a", tt, lit " b")
  ∧ _strip_dashes (_strip_dashes three_dashes) = lit "a, b"
  ∧ _strip_dashes (_strip_dashes three_dashes) ≠ _strip_dashes three_dashes.
Proof. vm_compute. repeat split. discriminate. Qed.

(** ** The item store *)

Section ItemStore.

Context (submitter_name url reason agreed_text : list N).

(** C4, as the code has it: when a row with the id exists the call returns
    the full updated record (the four content fields replaced by the trimmed
    arguments; id, timestamp and done flag kept) and stores it.  When no row
    has the id the table is left as it was and the call raises: [TypeError]
    from [dict(None)], or [OverflowError] for an id outside the 64-bit
    range.  No not-found value is returned. *)
Theorem update_news_item_result (item_id : Z) (t : Db.table) :
  (∀ r, Db.rows t !! item_id = Some r →
        Db.fits_int64 item_id = true →
        Db.update_news_item item_id submitter_name url reason agreed_text t
        = ({| Db.rows :=
                <[item_id := updated_row submitter_name url reason
                               agreed_text r]> (Db.rows t);
              Db.last_rowid := Db.last_rowid t |},
           Py.Return (updated_row submitter_name url reason agreed_text r)))
  ∧ (Db.rows t !! item_id = None →
     Db.update_news_item item_id submitter_name url reason agreed_text t
     = (t, Py.Raise (if Db.fits_int64 item_id then Py.TypeError
                     else Py.OverflowError))).
Proof.
  unfold Db.update_news_item. split.
  - intros r Hr Hfit. rewrite Hfit, Hr. cbn [negb Db.rows].
    rewrite lookup_insert_eq. reflexivity.
  - intros Hnone. destruct (Db.fits_int64 item_id); cbn [negb]; [|reflexivity].
    rewrite Hnone, Hnone. reflexivity.
Qed.

End ItemStore.

Lemma update_news_item_result_witness :
  Db.update_news_item 1 (lit "Ada L.") (lit "example.com/y") (lit " typo ")
    (lit "**Fixed.** Done.") one_item
  = ({| Db.rows :=
          <[1%Z := updated_row (lit "Ada L.") (lit "example.com/y")
                     (lit " typo ") (lit "**Fixed.** Done.")
                     (saved_row noon ada Db.empty)]> (Db.rows one_item);
        Db.last_rowid := 1 |},
     Py.Return (updated_row (lit "Ada L.") (lit "example.com/y")
                  (lit " typo ") (lit "**Fixed.** Done.")
                  (saved_row noon ada Db.empty))).
Proof.
  apply (proj1 (update_news_item_result (lit "Ada L.") (lit "example.com/y")
                  (lit " typo ") (lit "**Fixed.** Done.") 1 one_item)).
  - vm_compute. reflexivity.
  - reflexivity.
Defined.

(** C4 as stated fails: updating an id that no row has does not return; it
    raises [TypeError], also through [_parse_update_tag]. *)
Lemma update_missing_item_raises :
  Db.update_news_item 7 (lit "Ada") (lit "example.com/x") (lit "typo")
    (lit "**Fixed.** Done.") one_item
  = (one_item, Py.Raise Py.TypeError)
  ∧ _parse_update_tag
      (lit "<UPDATE_ITEM><id>7</id><name>Ada</name><url>example.com/x</url><reason>typo</reason><agreed_text>**Fixed.** Done.</agreed_text></UPDATE_ITEM>")
      one_item
    = (one_item, Py.Raise Py.TypeError).
Proof. split; vm_compute; reflexivity. Qed.
(** ** The session dictionary *)

Section Sessions.

Context {V : Type}.
Implicit Types (d : list (list N * V)) (k : list N) (v : V).

Lemma dict_get_set_eq d k v : dict_get k (dict_set k v d) = Some v.
Proof.
  induction d as [|[k' v'] d IH]; cbn.
  - rewrite decide_True by done. reflexivity.
  - destruct (decide (k' = k)) as [->|Hne]; cbn.
    + rewrite decide_True by done. reflexivity.
    + rewrite decide_False by done. exact IH.
Qed.

(** A new key goes last. *)
Lemma dict_set_absent d k v :
  dict_get k d = None → dict_set k v d = d ++ [(k, v)].
Proof.
  induction d as [|[k' v'] d IH]; cbn; [reflexivity|].
  destruct (decide (k' = k)); [discriminate|].
  intros Hd. rewrite (IH Hd). reflexivity.
Qed.

Lemma dict_get_drop d k n : dict_get k d = None → dict_get k (drop n d) = None.
Proof.
  revert n. induction d as [|[k' v'] d IH]; intros [|n]; cbn; try done.
  destruct (decide (k' = k)); [discriminate|]. apply IH.
Qed.

(** Deleting the first [n] keys of a dictionary drops its first [n]
    entries. *)
Lemma evict_oldest d n :
  fold_left (fun d k => dict_del k d) (take n (List.map fst d)) d = drop n d.
Proof.
  revert d. induction n as [|n IH]; intros [|[k v] d]; cbn; try reflexivity.
  rewrite decide_True by done. apply IH.
Qed.

End Sessions.

(** [new_session] adds a session whatever the size of the store. *)
Lemma new_session_grows (session_id : list N)
  (ss : list (list N * list Llm.message)) :
  dict_get session_id ss = None →
  length (new_session session_id ss).1 = S (length ss).
Proof.
  intros Hnew. unfold new_session. cbn [fst].
  rewrite (dict_set_absent _ _ _ Hnew), length_app. cbn. lia.
Qed.

(** What [_get_or_create_session] does for an unknown id: at the ceiling
    the [MAX_SESSIONS / 10] oldest sessions go, then the new one is added
    last. *)
Lemma get_or_create_session_new (session_id : list N)
  (ss : list (list N * list Llm.message)) :
  dict_get session_id ss = None →
  (_get_or_create_session session_id ss).1
  = (if MAX_SESSIONS <=? length ss then drop (MAX_SESSIONS / 10) ss else ss)
    ++ [(session_id, [])].
Proof.
  intros Hnew. unfold _get_or_create_session. rewrite Hnew. cbn [fst].
  rewrite evict_oldest. apply dict_set_absent.
  destruct (MAX_SESSIONS <=? length ss); [apply dict_get_drop|]; exact Hnew.
Qed.

(** Through [_get_or_create_session] the store stays within the ceiling and
    the newest session is never among those evicted. *)
Lemma get_or_create_session_bounded (session_id : list N)
  (ss : list (list N * list Llm.message)) :
  dict_get session_id ss = None →
  (_get_or_create_session session_id ss).1
  = (if MAX_SESSIONS <=? length ss then drop (MAX_SESSIONS / 10) ss else ss)
    ++ [(session_id, [])]
  ∧ (length ss ≤ MAX_SESSIONS →
     length (_get_or_create_session session_id ss).1 ≤ MAX_SESSIONS)
  ∧ (∀ newest, last ss = Some newest →
       newest ∈ (_get_or_create_session session_id ss).1).
Proof.
  intros Hnew. rewrite (get_or_create_session_new _ _ Hnew).
  split; [reflexivity|]. split.
  - intros Hle. rewrite length_app. cbn [length].
    destruct (Nat.leb_spec MAX_SESSIONS (length ss)) as [Hfull|Hroom].
    + rewrite length_drop. change (MAX_SESSIONS / 10) with 50.
      unfold MAX_SESSIONS in *. lia.
    + lia.
  - intros newest Hlast. apply elem_of_app. left.
    rewrite last_lookup in Hlast.
    destruct (Nat.leb_spec MAX_SESSIONS (length ss)) as [Hfull|Hroom].
    + apply (list_elem_of_lookup_2 _ (pred (length ss) - MAX_SESSIONS / 10)).
      rewrite lookup_drop, <- Hlast. f_equal.
      change (MAX_SESSIONS / 10) with 50. unfold MAX_SESSIONS in Hfull. lia.
    + apply (list_elem_of_lookup_2 _ _ _ Hlast).
Qed.

(** C8 at its failing input: 501 calls of [new_session] on a fresh store
    leave 501 live sessions, one more than [MAX_SESSIONS]. *)
Theorem new_session_exceeds_ceiling :
  length (opened 501) = 501 ∧ MAX_SESSIONS = 500.
Proof. split; [vm_compute|]; reflexivity. Qed.
(** ** The chat endpoint *)

Section ChatEndpoint.

Context (env : turn) (client : option (list N)) (session_id message : list N).
Context (st : state).

Lemma get_or_create_known (history : list Llm.message) :
  dict_get session_id (sessions st) = Some history →
  _get_or_create_session session_id (sessions st) = (sessions st, history).
Proof. unfold _get_or_create_session. intros ->. reflexivity. Qed.

(** C10, as the code has it: when the model call fails the turn ends with
    HTTP 502, the table of items is untouched and the rate-limit entry
    stays as the check left it.  The session store is as it was when the
    session id was known; for an unknown id the empty session that
    [_get_or_create_session] created (after its eviction, if the store was
    at the ceiling) stays, the other sessions that are left being as they
    were. *)
Theorem model_failure_aborts_turn (rl : gmap (list N) (Z * float)) :
  completion env = Llm.Failed →
  _check_rate_limit (monotonic env) (default (lit "unknown") client)
    (_rate_limit st) = (rl, true) →
  truthy (strip message) = true →
  chat_endpoint env client session_id message st
  = ({| _rate_limit := rl;
        sessions := (_get_or_create_session session_id (sessions st)).1;
        news_items := news_items st |},
     Py.Raise (Py.HTTPException 502))
  ∧ (∀ history, dict_get session_id (sessions st) = Some history →
       (_get_or_create_session session_id (sessions st)).1 = sessions st)
  ∧ (dict_get session_id (sessions st) = None →
     (_get_or_create_session session_id (sessions st)).1
     = (if MAX_SESSIONS <=? length (sessions st)
        then drop (MAX_SESSIONS / 10) (sessions st) else sessions st)
       ++ [(session_id, [])]).
Proof.
  intros Hfail Hcheck Hmsg. split; [|split].
  - unfold chat_endpoint. rewrite Hcheck. cbn [negb].
    destruct (_get_or_create_session session_id (sessions st)) as [ss history].
    rewrite Hmsg, Hfail. reflexivity.
  - intros history Hknown. rewrite (get_or_create_known _ Hknown). reflexivity.
  - apply get_or_create_session_new.
Qed.

End ChatEndpoint.

Lemma model_failure_aborts_turn_witness :
  chat_endpoint outage None (session_name 0) (lit "My name is Ada") running
  = ({| _rate_limit := {[ lit "unknown" := (1%Z, 12.5%float) ]};
        sessions :=
          (_get_or_create_session (session_name 0) (sessions running)).1;
        news_items := news_items running |},
     Py.Raise (Py.HTTPException 502))
  ∧ (∀ history,
       dict_get (session_name 0) (sessions running) = Some history →
       (_get_or_create_session (session_name 0) (sessions running)).1
       = sessions running)
  ∧ (dict_get (session_name 0) (sessions running) = None →
     (_get_or_create_session (session_name 0) (sessions running)).1
     = (if MAX_SESSIONS <=? length (sessions running)
        then drop (MAX_SESSIONS / 10) (sessions running)
        else sessions running)
       ++ [(session_name 0, [])]).
Proof.
  apply (model_failure_aborts_turn outage None (session_name 0)
           (lit "My name is Ada") running);
    vm_compute; reflexivity.
Defined.

(** C10 as stated fails: a failed turn for a session id the store does not
    know leaves a new, empty session behind. *)
Lemma failed_turn_creates_session :
  chat_endpoint outage None (session_name 0) (lit "My name is Ada") fresh
  = ({| _rate_limit := {[ lit "unknown" := (1%Z, 12.5%float) ]};
        sessions := [(session_name 0, [])];
        news_items := Db.empty |},
     Py.Raise (Py.HTTPException 502))
  ∧ sessions fresh = [].
Proof. vm_compute. repeat split. Qed.
Section Turn.

Context (now : list N).

(** [_parse_save_tag] never raises; it writes nothing when it returns no
    record, and one row when it returns one. *)
Lemma parse_save_tag_effect (text : list N) (t : Db.table) :
  (∃ cleaned, _parse_save_tag now text t = (t, Py.Return (cleaned, None)))
  ∨ (∃ a b c d cleaned item,
       _parse_save_tag now text t
       = ((Db.save_news_item now a b c d t).1,
          Py.Return (cleaned, Some item))).
Proof.
  unfold _parse_save_tag.
  destruct (search save_pattern text) as [[[pre block] rest]|]; [|eauto].
  destruct (negb _); [eauto|]. right.
  eexists _, _, _, _, _, _. unfold Db.save_news_item. cbn [Db.rows fst].
  rewrite lookup_insert_eq. reflexivity.
Qed.

(** [_parse_update_tag] writes nothing unless it returns a record, and then
    it is the one row that [update_news_item] rewrote. *)
Lemma parse_update_tag_effect (text : list N) (t : Db.table) :
  (∃ r, _parse_update_tag text t = (t, r)
        ∧ ∀ cleaned item, r = Py.Return (cleaned, item) → item = None)
  ∨ (∃ i a b c d cleaned item,
       _parse_update_tag text t
       = ((Db.update_news_item i a b c d t).1,
          Py.Return (cleaned, Some item))).
Proof.
  unfold _parse_update_tag.
  destruct (search update_pattern text) as [[[pre block] rest]|];
    [|left; eexists; split; [reflexivity|congruence]].
  destruct (negb _); [left; eexists; split; [reflexivity|congruence]|].
  destruct (Py.int _) as [i|];
    [|left; eexists; split; [reflexivity|congruence]].
  destruct (Db.update_news_item i _ _ _ _ t) as [t' [updated|e]] eqn:Hup.
  - right. eexists i, _, _, _, _, _, _. rewrite Hup. reflexivity.
  - left. exists (Py.Raise e). split; [|congruence].
    unfold Db.update_news_item in Hup.
    destruct (negb _); [congruence|].
    destruct (Db.rows t !! i) as [r|] eqn:Hr; [|congruence].
    cbn [Db.rows] in Hup. rewrite lookup_insert_eq in Hup. discriminate.
Qed.

End Turn.

Lemma set_last_content_app (history : list Llm.message) (m : Llm.message)
  (text : list N) :
  set_last_content (history ++ [m]) text
  = history ++ [{| Llm.msg_role := Llm.msg_role m; Llm.content := text |}].
Proof.
  induction history as [|m' history IH]; [reflexivity|].
  cbn [app set_last_content]. rewrite IH.
  destruct (history ++ [m]) eqn:Hh; [destruct history; discriminate|].
  reflexivity.
Qed.

Section Orchestrator.

Context (env : turn) (client : option (list N)) (session_id message : list N).
Context (st : state).

(** What a turn that returns did: the model answered, the save parser ran
    first on the normalised reply and the update parser only when the save
    parser returned no record, and the text returned to the caller became
    the last message of the stored history. *)
Lemma chat_endpoint_returns (rep : reply) :
  (chat_endpoint env client session_id message st).2 = Py.Return rep →
  ∃ text,
    completion env = Llm.Answered text
    ∧ (let raw := _strip_dashes (default [] text) in
       let st' := (chat_endpoint env client session_id message st).1 in
       match _parse_save_tag (utc_now env) raw (news_items st) with
       | (t, Py.Return (cleaned, Some item)) =>
           rep = {| response := cleaned; saved_item := Some item |}
           ∧ news_items st' = t
       | (t, Py.Return (cleaned, None)) =>
           t = news_items st
           ∧ _parse_update_tag cleaned t
             = (news_items st', Py.Return (response rep, saved_item rep))
       | (_, Py.Raise _) => False
       end)
    ∧ dict_get session_id
        (sessions (chat_endpoint env client session_id message st).1)
      = Some
          (_trim_history (_get_or_create_session session_id (sessions st)).2
           ++ [{| Llm.msg_role := Llm.user;
                  Llm.content := effective_message env (strip message) |};
               {| Llm.msg_role := Llm.assistant;
                  Llm.content := response rep |}]).
Proof.
  unfold chat_endpoint.
  destruct (_check_rate_limit _ _ _) as [rl allowed].
  destruct allowed; cbn [negb]; [|discriminate].
  destruct (_get_or_create_session session_id (sessions st)) as [ss history].
  destruct (truthy (strip message)); cbn [negb]; [|discriminate].
  unfold Llm.chat.
  destruct (completion env) as [|text]; [discriminate|].
  set (raw := _strip_dashes (default [] text)).
  assert (∀ cleaned,
            dict_get session_id
              (dict_set session_id
                 (set_last_content
                    ((_trim_history history
                      ++ [{| Llm.msg_role := Llm.user;
                             Llm.content :=
                               effective_message env (strip message) |}])
                     ++ [{| Llm.msg_role := Llm.assistant;
                            Llm.content := default [] text |}]) cleaned) ss)
            = Some (_trim_history history
                    ++ [{| Llm.msg_role := Llm.user;
                           Llm.content :=
                             effective_message env (strip message) |};
                        {| Llm.msg_role := Llm.assistant;
                           Llm.content := cleaned |}])) as Hstored.
  { intros cleaned.
    rewrite dict_get_set_eq, set_last_content_app, <- app_assoc.
    reflexivity. }
  destruct (parse_save_tag_effect (utc_now env) raw (news_items st))
    as [[cleaned Hsave]|(a & b & c & d & cleaned & item & Hsave)];
    rewrite Hsave.
  - destruct (_parse_update_tag cleaned (news_items st))
      as [t' [[cleaned' item]|e]] eqn:Hr; cbn [fst snd]; [|discriminate].
    intros [= <-]. exists text.
    split; [reflexivity|]. fold raw. rewrite Hsave.
    split; [split; [reflexivity|exact Hr]|]. apply Hstored.
  - cbn [fst snd]. intros [= <-]. exists text.
    split; [reflexivity|]. fold raw. rewrite Hsave.
    split; [split; reflexivity|]. apply Hstored.
Qed.

(** A turn writes to the table at most once. *)
Lemma chat_endpoint_one_mutation :
  one_mutation (utc_now env) (news_items st)
    (news_items (chat_endpoint env client session_id message st).1).
Proof.
  unfold chat_endpoint.
  destruct (_check_rate_limit _ _ _) as [rl allowed].
  destruct allowed; cbn [negb]; [|left; reflexivity].
  destruct (_get_or_create_session session_id (sessions st)) as [ss history].
  destruct (truthy (strip message)); cbn [negb]; [|left; reflexivity].
  destruct (Llm.chat _ _ _) as [[raw updated_history]|]; [|left; reflexivity].
  destruct (parse_save_tag_effect (utc_now env) (_strip_dashes raw)
              (news_items st))
    as [[cleaned ->]|(a & b & c & d & cleaned & item & ->)].
  - destruct (parse_update_tag_effect cleaned (news_items st))
      as [(r & -> & _)|(i & a & b & c & d & cleaned' & item & ->)].
    + destruct r as [[cleaned' item]|e]; left; reflexivity.
    + right. right. eauto 6.
  - right. left. eauto 6.
Qed.

(** The order of the parsers in a turn: the save parser runs first, on the
    normalised reply; the update parser runs only when the save parser
    returned no record, on the text the save parser returned.  So a turn
    writes to the table at most once.  The assistant message stored for the
    session is the text returned to the caller, appended with the user's
    message to the trimmed history.  It holds no block delimiter when the
    reply is one well-formed save block in a text that holds none. *)
Theorem chat_turn_extraction :
  one_mutation (utc_now env) (news_items st)
    (news_items (chat_endpoint env client session_id message st).1)
  ∧ (∀ rep,
      (chat_endpoint env client session_id message st).2 = Py.Return rep →
      ∃ text,
        completion env = Llm.Answered text
        ∧ (let raw := _strip_dashes (default [] text) in
           let st' := (chat_endpoint env client session_id message st).1 in
           match _parse_save_tag (utc_now env) raw (news_items st) with
           | (t, Py.Return (cleaned, Some item)) =>
               rep = {| response := cleaned; saved_item := Some item |}
               ∧ news_items st' = t
           | (t, Py.Return (cleaned, None)) =>
               t = news_items st
               ∧ _parse_update_tag cleaned t
                 = (news_items st',
                    Py.Return (response rep, saved_item rep))
           | (_, Py.Raise _) => False
           end)
        ∧ dict_get session_id
            (sessions (chat_endpoint env client session_id message st).1)
          = Some
              (_trim_history
                 (_get_or_create_session session_id (sessions st)).2
               ++ [{| Llm.msg_role := Llm.user;
                      Llm.content := effective_message env (strip message) |};
                   {| Llm.msg_role := Llm.assistant;
                      Llm.content := response rep |}])
        ∧ persisted_reply session_id
            (chat_endpoint env client session_id message st).1
          = Some (response rep)
        ∧ ∀ pre o b c post,
            _strip_dashes (default [] text) = pre ++ o ++ body b ++ c ++ post →
            spelled SAVE_OPEN o → spelled SAVE_CLOSE c →
            well_formed b = true →
            markup_free (pre ++ post) = true →
            response rep = strip (pre ++ post)
            ∧ markup_free (response rep) = true).
Proof.
  split; [apply chat_endpoint_one_mutation|].
  intros rep Hrep.
  destruct (chat_endpoint_returns rep Hrep) as (text & Htext & Hparse & Hstored).
  exists text. split; [exact Htext|]. split; [exact Hparse|].
  split; [exact Hstored|]. split.
  - unfold persisted_reply. rewrite Hstored, last_app. reflexivity.
  - intros pre o b c post Hraw Ho Hc Hwf Hfree. cbv zeta in Hparse.
    apply andb_true_iff in Hfree as [Hsave Hupdate].
    pose proof Hsave as [Hpre _]%andb_true_iff.
    apply negb_true_iff, occurs_app in Hpre as [Hpre _].
    rewrite Hraw in Hparse.
    rewrite (parse_save_tag_well_formed _ _ pre post o c b Ho Hc Hwf Hpre)
      in Hparse.
    destruct Hparse as [-> _]. cbn [response].
    pose proof (well_formed_first_match pre post o c b Ho Hc Hwf Hpre) as Hs.
    destruct (sub_after_first_match SAVE_OPEN SAVE_CLOSE _ _ _ _ eq_refl Hs)
      as [_ Hclean].
    fold save_pattern in Hclean.
    destruct (Hclean Hsave) as [-> Hdone]. split; [reflexivity|].
    unfold markup_free. rewrite Hdone.
    apply delimiter_free_strip, Hupdate.
Qed.

End Orchestrator.

Lemma chat_turn_extraction_witness :
  one_mutation noon (news_items running)
    (news_items
       (chat_endpoint (answering ada_reply) None (session_name 0)
          (lit "save it") running).1).
Proof.
  apply (proj1 (chat_turn_extraction (answering ada_reply) None
                  (session_name 0) (lit "save it") running)).
Defined.

(** C3 at its failing input, a reply that holds a complete save block and
    then a complete update block: the item is saved, the update parser is
    skipped, and the text returned to the caller and stored as the
    assistant message of the session is the raw update block with the word
    before it. *)
Theorem update_block_left_in_history :
  (chat_endpoint (answering both_blocks) None (session_name 0)
     (lit "save it") running).2
  = Py.Return
      {| response := lit "and " ++ update_of_ada;
         saved_item := Some (saved_row noon ada one_item) |}
  ∧ persisted_reply (session_name 0)
      (chat_endpoint (answering both_blocks) None (session_name 0)
         (lit "save it") running).1
    = Some (lit "and " ++ update_of_ada)
  ∧ markup_free (lit "and " ++ update_of_ada) = false
  ∧ occurs UPDATE_OPEN (lit "and " ++ update_of_ada) = true
  ∧ occurs UPDATE_CLOSE (lit "and " ++ update_of_ada) = true.
Proof. vm_compute. repeat split. Qed.

Lemma get_or_create_session_bounded_witness :
  (_get_or_create_session (session_name 3) (opened 3)).1
  = (if MAX_SESSIONS <=? length (opened 3)
     then drop (MAX_SESSIONS / 10) (opened 3) else opened 3)
    ++ [(session_name 3, [])]
  ∧ (length (opened 3) ≤ MAX_SESSIONS →
     length (_get_or_create_session (session_name 3) (opened 3)).1
     ≤ MAX_SESSIONS)
  ∧ (∀ newest, last (opened 3) = Some newest →
       newest ∈ (_get_or_create_session (session_name 3) (opened 3)).1).
Proof.
  apply (get_or_create_session_bounded (session_name 3) (opened 3)).
  vm_compute. reflexivity.
Defined.

(** ** The item store over time *)

Section StoreOverTime.

Lemma table_eq (t t' : Db.table) :
  Db.rows t = Db.rows t' → Db.last_rowid t = Db.last_rowid t' → t = t'.
Proof. destruct t, t'; cbn; intros -> ->; reflexivity. Qed.

Lemma table_ok_empty : table_ok Db.empty.
Proof. split; [cbn; lia|]. intros k r. cbn. rewrite lookup_empty. discriminate. Qed.

Lemma table_ok_fresh (t : Db.table) (k : Z) :
  table_ok t → (Db.last_rowid t < k)%Z → Db.rows t !! k = None.
Proof.
  intros [_ Hok] Hk. destruct (Db.rows t !! k) as [r|] eqn:E; [|reflexivity].
  apply Hok in E. lia.
Qed.

Lemma save_news_item_ok (now a b c d : list N) (t : Db.table) :
  table_ok t → table_ok (fst (Db.save_news_item now a b c d t)).
Proof.
  intros [H0 Hok]. split; cbn [fst Db.save_news_item Db.rows Db.last_rowid].
  - lia.
  - intros k r. destruct (decide (k = Db.last_rowid t + 1)%Z) as [->|Hne].
    + rewrite lookup_insert_eq. intros [= <-]. cbn [Db.id]. lia.
    + rewrite lookup_insert_ne by congruence. intros Hr.
      apply Hok in Hr. lia.
Qed.

Lemma update_news_item_ok (i : Z) (a b c d : list N) (t : Db.table) :
  table_ok t → table_ok (fst (Db.update_news_item i a b c d t)).
Proof.
  intros Hok. unfold Db.update_news_item.
  destruct (negb (Db.fits_int64 i)); [exact Hok|]. cbn [fst].
  destruct (Db.rows t !! i) as [r0|] eqn:E; [|exact Hok].
  destruct Hok as [H0 Hok]. split; [exact H0|]. cbn [Db.rows Db.last_rowid].
  intros k r. destruct (decide (k = i)) as [->|Hne].
  - rewrite lookup_insert_eq. intros [= <-]. cbn [Db.id]. exact (Hok _ _ E).
  - rewrite lookup_insert_ne by congruence. apply Hok.
Qed.

Lemma mark_done_ok (i : Z) (d : bool) (t : Db.table) :
  table_ok t → table_ok (fst (Db.mark_done i d t)).
Proof.
  intros Hok. unfold Db.mark_done.
  destruct (negb (Db.fits_int64 i)); [exact Hok|]. cbn [fst].
  destruct (Db.rows t !! i) as [r0|] eqn:E; [|exact Hok].
  destruct Hok as [H0 Hok]. split; [exact H0|]. cbn [Db.rows Db.last_rowid].
  intros k r. destruct (decide (k = i)) as [->|Hne].
  - rewrite lookup_insert_eq. intros [= <-]. cbn [Db.id]. exact (Hok _ _ E).
  - rewrite lookup_insert_ne by congruence. apply Hok.
Qed.

Lemma delete_news_item_ok (i : Z) (t : Db.table) :
  table_ok t → table_ok (fst (Db.delete_news_item i t)).
Proof.
  intros Hok. unfold Db.delete_news_item.
  destruct (negb (Db.fits_int64 i)); [exact Hok|]. cbn [fst].
  destruct Hok as [H0 Hok]. split; [exact H0|]. cbn [Db.rows Db.last_rowid].
  intros k r Hr. apply lookup_delete_Some in Hr as [_ Hr]. exact (Hok _ _ Hr).
Qed.

Lemma add_manual_table (now : list N) (body : ManualItemRequest) (t : Db.table) :
  fst (add_manual now body t) = t
  ∨ ∃ a b c d, fst (add_manual now body t)
               = fst (Db.save_news_item now a b c d t).
Proof.
  unfold add_manual. destruct (manual_errors body); [|left; reflexivity].
  right. eauto.
Qed.

Lemma apply_op_ok (o : db_op) (t : Db.table) :
  table_ok t → table_ok (apply_op o t).
Proof.
  intros Hok. destruct o as [now a b c d|now form|i a b c d|i d|i];
    cbn [apply_op].
  - by apply save_news_item_ok.
  - destruct (add_manual_table now form t) as [->|(a & b & c & d & ->)];
      [exact Hok | by apply save_news_item_ok].
  - by apply update_news_item_ok.
  - by apply mark_done_ok.
  - by apply delete_news_item_ok.
Qed.

(** What one call may do to the rows: the counter never goes back, and a
    row that is there afterwards was there before or has a new id. *)
Lemma apply_op_absent (o : db_op) (t : Db.table) (k : Z) :
  (k ≤ Db.last_rowid t)%Z → Db.rows t !! k = None →
  (Db.last_rowid t ≤ Db.last_rowid (apply_op o t))%Z
  ∧ Db.rows (apply_op o t) !! k = None.
Proof.
  intros Hk Hnone.
  assert (Hsave : ∀ now a b c d,
    (Db.last_rowid t ≤ Db.last_rowid (fst (Db.save_news_item now a b c d t)))%Z
    ∧ Db.rows (fst (Db.save_news_item now a b c d t)) !! k = None).
  { intros. cbn [fst Db.save_news_item Db.rows Db.last_rowid]. split; [lia|].
    rewrite lookup_insert_ne by lia. exact Hnone. }
  destruct o as [now a b c d|now form|item_id a b c d|item_id d|item_id];
    cbn [apply_op].
  - apply Hsave.
  - destruct (add_manual_table now form t) as [->|(a & b & c & d & ->)];
      [split; [lia|exact Hnone] | apply Hsave].
  - unfold Db.update_news_item.
    destruct (negb (Db.fits_int64 item_id)); cbn [fst]; [split; [lia|done]|].
    destruct (Db.rows t !! item_id) eqn:E; [|split; [lia|done]].
    cbn [Db.rows Db.last_rowid]. split; [lia|].
    rewrite lookup_insert_ne by congruence. exact Hnone.
  - unfold Db.mark_done.
    destruct (negb (Db.fits_int64 item_id)); cbn [fst]; [split; [lia|done]|].
    destruct (Db.rows t !! item_id) eqn:E; [|split; [lia|done]].
    cbn [Db.rows Db.last_rowid]. split; [lia|].
    rewrite lookup_insert_ne by congruence. exact Hnone.
  - unfold Db.delete_news_item.
    destruct (negb (Db.fits_int64 item_id)); cbn [fst]; [split; [lia|done]|].
    cbn [Db.rows Db.last_rowid]. split; [lia|].
    apply lookup_delete_None. by right.
Qed.

(** The shape of the table survives every sequence of calls, whatever each
    one returns or raises; started from the empty table, every table the
    program reaches has it. *)
Theorem store_invariant (ops : list db_op) (t : Db.table) :
  table_ok t → table_ok (run_ops ops t).
Proof.
  revert t. induction ops as [|o ops IH]; intros t Hok; [exact Hok|].
  cbn. apply IH, apply_op_ok, Hok.
Qed.

(** An id that has been handed out and whose row is gone is never handed
    out again: no later sequence of saves, manual submissions, updates,
    flag changes and deletions brings a row back under it. *)
Theorem deleted_id_never_reused (ops : list db_op) (t : Db.table) (k : Z) :
  (k ≤ Db.last_rowid t)%Z → Db.rows t !! k = None →
  Db.rows (run_ops ops t) !! k = None.
Proof.
  revert t. induction ops as [|o ops IH]; intros t Hk Hnone; [exact Hnone|].
  cbn. destruct (apply_op_absent o t k Hk Hnone) as [Hle Hnone'].
  apply IH; [lia | exact Hnone'].
Qed.

(** [save_news_item] on a table of the right shape: the call returns the
    row it stored; the row's id is new and larger than every id in the
    table; every other row is as before; the count grows by one. *)
Theorem save_news_item_fresh (now a b c d : list N) (t : Db.table) :
  table_ok t →
  ∃ t' row,
    Db.save_news_item now a b c d t = (t', Py.Return row)
    ∧ Db.rows t !! Db.id row = None
    ∧ Db.rows t' !! Db.id row = Some row
    ∧ (∀ k, is_Some (Db.rows t !! k) → (k < Db.id row)%Z)
    ∧ (∀ k, k ≠ Db.id row → Db.rows t' !! k = Db.rows t !! k)
    ∧ Db.get_item_count t' = (Db.get_item_count t + 1)%Z
    ∧ Db.submitter_name row = strip a ∧ Db.url row = strip b
    ∧ Db.reason row = strip c ∧ Db.agreed_text row = strip d
    ∧ Db.created_at row = now ∧ Db.done row = 0%Z.
Proof.
  intros Hok.
  pose proof (table_ok_fresh t (Db.last_rowid t + 1) Hok ltac:(lia)) as Hfresh.
  eexists _, _. unfold Db.save_news_item. cbn zeta. cbn [Db.rows].
  rewrite lookup_insert_eq. cbn [Db.dict_of_fetchone Db.id].
  split; [reflexivity|]. cbn [Db.id]. split; [exact Hfresh|].
  split; [apply lookup_insert_eq|].
  split; [intros k [r Hr]; apply (proj2 Hok) in Hr; lia|].
  split; [intros k Hk; apply lookup_insert_ne; congruence|].
  split; [|repeat split].
  unfold Db.get_item_count. cbn [Db.rows].
  rewrite map_size_insert_None by exact Hfresh. lia.
Qed.

Lemma save_news_item_fresh_witness :
  table_ok Db.empty
  ∧ ∃ t' row,
      Db.save_news_item noon (lit " Ada ") (lit "example.com/x")
        (lit "demo") (lit "**A.** B.") Db.empty = (t', Py.Return row)
      ∧ Db.rows Db.empty !! Db.id row = None
      ∧ Db.rows t' !! Db.id row = Some row
      ∧ (∀ k, is_Some (Db.rows Db.empty !! k) → (k < Db.id row)%Z)
      ∧ (∀ k, k ≠ Db.id row → Db.rows t' !! k = Db.rows Db.empty !! k)
      ∧ Db.get_item_count t' = (Db.get_item_count Db.empty + 1)%Z
      ∧ Db.submitter_name row = strip (lit " Ada ")
      ∧ Db.url row = strip (lit "example.com/x")
      ∧ Db.reason row = strip (lit "demo")
      ∧ Db.agreed_text row = strip (lit "**A.** B.")
      ∧ Db.created_at row = noon ∧ Db.done row = 0%Z.
Proof.
  split; [exact table_ok_empty|].
  apply save_news_item_fresh. exact table_ok_empty.
Defined.

Lemma store_invariant_witness :
  table_ok Db.empty
  ∧ table_ok
      (run_ops [op_save noon (lit "Ada") (lit "example.com/x") (lit "demo")
                  (lit "**A.** B.");
                op_delete 1;
                op_add_manual noon filled_form;
                op_mark_done 2 true]
         Db.empty).
Proof.
  split; [exact table_ok_empty|].
  apply store_invariant. exact table_ok_empty.
Defined.

Lemma deleted_id_never_reused_witness :
  (1 ≤ Db.last_rowid (fst (Db.delete_news_item 1 one_item)))%Z
  ∧ Db.rows (fst (Db.delete_news_item 1 one_item)) !! 1%Z = None
  ∧ Db.rows
      (run_ops [op_save noon (lit "Ada") (lit "example.com/x") (lit "demo")
                  (lit "**A.** B.");
                op_update 1 (lit "Ada") (lit "example.com/x") (lit "demo")
                  (lit "**A.** B.")]
         (fst (Db.delete_news_item 1 one_item))) !! 1%Z = None.
Proof.
  assert (H1 : (1 ≤ Db.last_rowid (fst (Db.delete_news_item 1 one_item)))%Z)
    by (vm_compute; discriminate).
  assert (H2 : Db.rows (fst (Db.delete_news_item 1 one_item)) !! 1%Z = None)
    by (vm_compute; reflexivity).
  split; [exact H1|]. split; [exact H2|].
  apply deleted_id_never_reused; [exact H1 | exact H2].
Defined.

(** [mark_done] and [set_done], for an id in the 64-bit range: the call
    returns, and [set_done] answers ok with the id and the flag, whether or
    not a row has the id.  A row with the id gets the flag and keeps every
    other field; a missing id changes nothing; every other row, the row
    count and the rowid counter are as before. *)
Theorem mark_done_effect (item_id : Z) (done : bool) (t : Db.table) :
  Db.fits_int64 item_id = true →
  ∃ t',
    Db.mark_done item_id done t = (t', Py.Return tt)
    ∧ set_done item_id done t = (t', Py.Return (item_id, done))
    ∧ Db.rows t' !! item_id
      = with_done (if done then 1 else 0) <$> Db.rows t !! item_id
    ∧ (∀ k, k ≠ item_id → Db.rows t' !! k = Db.rows t !! k)
    ∧ Db.last_rowid t' = Db.last_rowid t
    ∧ Db.get_item_count t' = Db.get_item_count t.
Proof.
  intros Hfit. unfold set_done, Db.mark_done. rewrite Hfit. cbn [negb].
  eexists. split; [reflexivity|]. split; [reflexivity|].
  destruct (Db.rows t !! item_id) as [r|] eqn:E.
  - cbn [Db.rows Db.last_rowid fmap option_fmap option_map].
    split; [apply lookup_insert_eq|].
    split; [intros k Hk; apply lookup_insert_ne; congruence|].
    split; [reflexivity|].
    unfold Db.get_item_count. cbn [Db.rows].
    rewrite map_size_insert_Some; [reflexivity | by rewrite E].
  - rewrite E. repeat split.
Qed.

Lemma mark_done_effect_witness :
  Db.fits_int64 7 = true
  ∧ ∃ t',
      Db.mark_done 7 true one_item = (t', Py.Return tt)
      ∧ set_done 7 true one_item = (t', Py.Return (7%Z, true))
      ∧ Db.rows t' !! 7%Z = with_done 1 <$> Db.rows one_item !! 7%Z
      ∧ (∀ k, k ≠ 7%Z → Db.rows t' !! k = Db.rows one_item !! k)
      ∧ Db.last_rowid t' = Db.last_rowid one_item
      ∧ Db.get_item_count t' = Db.get_item_count one_item.
Proof.
  split; [reflexivity|].
  apply (mark_done_effect 7 true one_item). reflexivity.
Defined.

(** The done flag and the content of a row are written independently:
    changing a flag and editing an item, the same one or another, give the
    same table in either order; and of two flag changes of one item the
    later one stands. *)
Theorem mark_done_update_commute (i j : Z) (flag flag' : bool)
  (a b c d : list N) (t : Db.table) :
  fst (Db.update_news_item j a b c d (fst (Db.mark_done i flag t)))
  = fst (Db.mark_done i flag (fst (Db.update_news_item j a b c d t)))
  ∧ fst (Db.mark_done i flag' (fst (Db.mark_done i flag t)))
    = fst (Db.mark_done i flag' t).
Proof.
  split.
  - unfold Db.update_news_item, Db.mark_done.
    destruct (Db.fits_int64 i), (Db.fits_int64 j); cbn [negb fst];
      try reflexivity.
    destruct (decide (i = j)) as [->|Hne].
    + destruct (Db.rows t !! j) as [r|] eqn:E; cbn [Db.rows];
        [|rewrite E; reflexivity].
      rewrite !lookup_insert_eq. apply table_eq; [|reflexivity].
      cbn [Db.rows Db.id Db.created_at Db.done Db.submitter_name Db.url
           Db.reason Db.agreed_text].
      by rewrite !insert_insert_eq.
    + destruct (Db.rows t !! i) as [r|] eqn:Ei,
               (Db.rows t !! j) as [r'|] eqn:Ej; cbn [Db.rows];
        rewrite ?lookup_insert_ne by congruence; rewrite ?Ei, ?Ej;
        try reflexivity.
      apply table_eq; [|reflexivity]. cbn [Db.rows].
      apply insert_insert_ne. congruence.
  - unfold Db.mark_done. destruct (Db.fits_int64 i); cbn [negb fst];
      [|reflexivity].
    destruct (Db.rows t !! i) as [r|] eqn:E; cbn [Db.rows];
      [|rewrite E; reflexivity].
    rewrite lookup_insert_eq. apply table_eq; [|reflexivity].
    cbn [Db.rows Db.id Db.created_at Db.done Db.submitter_name Db.url
         Db.reason Db.agreed_text].
    by rewrite insert_insert_eq.
Qed.

(** [update_news_item] never adds or removes a row: whether it returns or
    raises, the row count and the rowid counter are as before and every row
    but the one with the id is untouched.  A second call with the same
    arguments changes nothing more. *)
Theorem update_news_item_frame (item_id : Z) (a b c d : list N)
  (t : Db.table) :
  let t' := fst (Db.update_news_item item_id a b c d t) in
  (∀ k, k ≠ item_id → Db.rows t' !! k = Db.rows t !! k)
  ∧ Db.get_item_count t' = Db.get_item_count t
  ∧ Db.last_rowid t' = Db.last_rowid t
  ∧ (is_Some (Db.rows t' !! item_id) ↔ is_Some (Db.rows t !! item_id))
  ∧ Db.update_news_item item_id a b c d t'
    = (t', snd (Db.update_news_item item_id a b c d t)).
Proof.
  cbn zeta. unfold Db.update_news_item.
  destruct (Db.fits_int64 item_id); cbn [negb fst snd]; [|done].
  destruct (Db.rows t !! item_id) as [r|] eqn:E; [|rewrite !E; done].
  cbn [Db.rows Db.last_rowid]. rewrite !lookup_insert_eq.
  split; [intros k Hk; apply lookup_insert_ne; congruence|].
  split; [unfold Db.get_item_count; cbn [Db.rows];
          rewrite map_size_insert_Some; [reflexivity | by rewrite E]|].
  split; [reflexivity|]. split; [split; intros _; eexists; reflexivity|].
  cbn [Db.id Db.created_at Db.done Db.rows].
  rewrite !insert_insert_eq, !lookup_insert_eq. reflexivity.
Qed.

End StoreOverTime.

(** ** Manual submission *)

Section ManualSubmission.

Lemma rstrip_app (x y : list N) :
  rstrip y ≠ [] → rstrip (x ++ y) = x ++ rstrip y.
Proof.
  intros Hy. induction x as [|c x IH]; [reflexivity|].
  cbn [app rstrip]. rewrite IH.
  destruct (x ++ rstrip y) as [|c' r] eqn:E; [|reflexivity].
  apply app_eq_nil in E as [_ E]. contradiction.
Qed.

Lemma rstrip_strip (s : list N) : rstrip (strip s) = strip s.
Proof. unfold strip. apply rstrip_idem. Qed.

(** The blurb that [add_manual] builds is already trimmed: the [strip] of
    [save_news_item] stores it as it is. *)
Lemma manual_blurb_trimmed (h e : list N) :
  truthy (strip e) = true →
  strip (lit "**" ++ h ++ lit "** " ++ strip e)
  = lit "**" ++ h ++ lit "** " ++ strip e.
Proof.
  intros Ht. unfold strip at 1.
  replace (lstrip (lit "**" ++ h ++ lit "** " ++ strip e))
    with ((lit "**" ++ h ++ lit "** ") ++ strip e)
    by (rewrite <- !app_assoc; reflexivity).
  rewrite rstrip_app, rstrip_strip; [by rewrite <- !app_assoc|].
  rewrite rstrip_strip. destruct (strip e); [discriminate|done].
Qed.

Lemma manual_errors_keys (body : ManualItemRequest) :
  List.map fst (manual_errors body) = blank_fields body.
Proof.
  unfold manual_errors, blank_fields. cbn [List.filter snd].
  destruct (truthy (strip (name body))), (truthy (strip (url body))),
    (truthy (strip (headline body))), (truthy (strip (entry body))),
    (truthy (strip (reason body))); reflexivity.
Qed.

(** [add_manual] with a blank field: the request is refused with status
    422, nothing is written, and the error detail names exactly the blank
    fields, in the order name, url, headline, entry, reason. *)
Theorem add_manual_rejects (now : list N) (body : ManualItemRequest)
  (t : Db.table) :
  blank_fields body ≠ [] →
  add_manual now body t = (t, Py.Raise (Py.HTTPException 422))
  ∧ List.map fst (manual_errors body) = blank_fields body.
Proof.
  intros Hblank. split; [|apply manual_errors_keys].
  unfold add_manual. rewrite <- manual_errors_keys in Hblank.
  destruct (manual_errors body); [contradiction|reflexivity].
Qed.

Lemma add_manual_rejects_witness :
  blank_fields partial_form ≠ []
  ∧ add_manual noon partial_form one_item
    = (one_item, Py.Raise (Py.HTTPException 422))
  ∧ List.map fst (manual_errors partial_form) = blank_fields partial_form.
Proof.
  assert (H : blank_fields partial_form ≠ []) by (vm_compute; discriminate).
  split; [exact H|]. apply add_manual_rejects. exact H.
Defined.

(** [add_manual] with no blank field, on a table of the right shape: the
    call returns the row it stored under a new id; name, url and reason are
    the trimmed fields, and the blurb is exactly the trimmed headline in
    double asterisks, one space, and the trimmed entry; the item is not
    done; every row that was there is as before. *)
Theorem add_manual_saves (now : list N) (body : ManualItemRequest)
  (t : Db.table) :
  table_ok t → blank_fields body = [] →
  ∃ t' row,
    add_manual now body t = (t', Py.Return row)
    ∧ Db.rows t !! Db.id row = None
    ∧ Db.rows t' !! Db.id row = Some row
    ∧ (∀ k, k ≠ Db.id row → Db.rows t' !! k = Db.rows t !! k)
    ∧ Db.submitter_name row = strip (name body)
    ∧ Db.url row = strip (url body)
    ∧ Db.reason row = strip (reason body)
    ∧ Db.agreed_text row
      = lit "**" ++ strip (headline body) ++ lit "** " ++ strip (entry body)
    ∧ Db.created_at row = now ∧ Db.done row = 0%Z.
Proof.
  intros Hok Hblank.
  assert (Hentry : truthy (strip (entry body)) = true).
  { revert Hblank. unfold blank_fields. cbn [List.filter snd].
    destruct (truthy (strip (entry body))); [reflexivity|].
    destruct (truthy (strip (name body))), (truthy (strip (url body))),
      (truthy (strip (headline body))), (truthy (strip (reason body)));
      discriminate. }
  pose proof (table_ok_fresh t (Db.last_rowid t + 1) Hok ltac:(lia)) as Hfresh.
  unfold add_manual. rewrite <- manual_errors_keys in Hblank.
  destruct (manual_errors body); [clear Hblank|discriminate].
  eexists _, _. unfold Db.save_news_item. cbn zeta. cbn [Db.rows].
  rewrite lookup_insert_eq. cbn [Db.dict_of_fetchone].
  split; [reflexivity|]. cbn [Db.id Db.submitter_name Db.url Db.reason
                              Db.agreed_text Db.created_at Db.done].
  rewrite !strip_idem, (manual_blurb_trimmed _ _ Hentry).
  split; [exact Hfresh|]. split; [apply lookup_insert_eq|].
  split; [intros k Hk; apply lookup_insert_ne; congruence|].
  repeat split.
Qed.

Lemma add_manual_saves_witness :
  table_ok Db.empty ∧ blank_fields filled_form = []
  ∧ ∃ t' row,
      add_manual noon filled_form Db.empty = (t', Py.Return row)
      ∧ Db.rows Db.empty !! Db.id row = None
      ∧ Db.rows t' !! Db.id row = Some row
      ∧ (∀ k, k ≠ Db.id row → Db.rows t' !! k = Db.rows Db.empty !! k)
      ∧ Db.submitter_name row = strip (name filled_form)
      ∧ Db.url row = strip (url filled_form)
      ∧ Db.reason row = strip (reason filled_form)
      ∧ Db.agreed_text row
        = lit "**" ++ strip (headline filled_form) ++ lit "** "
          ++ strip (entry filled_form)
      ∧ Db.created_at row = noon ∧ Db.done row = 0%Z.
Proof.
  split; [exact table_ok_empty|]. split; [reflexivity|].
  apply add_manual_saves; [exact table_ok_empty | reflexivity].
Defined.

End ManualSubmission.

(** ** Keyword tests *)

Section Keywords.

Lemma lower_app (a b : list N) : Py.lower (a ++ b) = Py.lower a ++ Py.lower b.
Proof. unfold Py.lower. rewrite List.map_app, concat_app. reflexivity. Qed.

Lemma startswith_app (p rest : list N) : Py.startswith p (p ++ rest) = true.
Proof.
  induction p as [|c p IH]; [reflexivity|].
  cbn. rewrite N.eqb_refl. exact IH.
Qed.

Lemma contains_app (kw a b : list N) : Py.contains kw (a ++ kw ++ b) = true.
Proof.
  induction a as [|c a IH].
  - cbn [app]. pose proof (startswith_app kw b) as Hhere.
    destruct (kw ++ b); cbn [Py.contains]; rewrite Hhere; reflexivity.
  - cbn [app Py.contains]. rewrite IH. apply orb_true_r.
Qed.

Lemma existsb_elem {A} (f : A → bool) (x : A) (l : list A) :
  x ∈ l → f x = true → existsb f l = true.
Proof.
  intros Hx Hf. apply existsb_exists. exists x. split; [|exact Hf].
  apply list_elem_of_In. exact Hx.
Qed.



End Keywords.

(** ** Histories and sessions over time *)

Section HistoryBounds.

(** [_trim_history] only drops messages: what it returns is a subsequence
    of the history, in order, of at most [MAX_HISTORY] messages; the latest
    message is always kept; and trimming a trimmed history changes
    nothing. *)
Theorem trim_history_keeps_ends (history : list Llm.message) :
  sublist (_trim_history history) history
  ∧ length (_trim_history history) ≤ MAX_HISTORY
  ∧ last (_trim_history history) = last history
  ∧ _trim_history (_trim_history history) = _trim_history history.
Proof.
  unfold _trim_history, MAX_HISTORY.
  destruct (Nat.ltb_spec 60 (length history)) as [Hlong|Hshort].
  - assert (Hlen : length (take 1 history
                           ++ drop (length history - (60 - 1)) history) = 60).
    { rewrite length_app, length_take, length_drop. lia. }
    split; [|split; [lia|split]].
    + destruct history as [|m history]; [cbn in Hlong; lia|].
      cbn [length] in Hlong |- *.
      replace (S (length history) - (60 - 1)) with (S (length history - 59))
        by lia.
      cbn [take drop app]. apply sublist_skip, sublist_drop.
    + rewrite !last_lookup, Hlen.
      rewrite lookup_app_r by (rewrite length_take; lia).
      rewrite lookup_drop, length_take. f_equal. lia.
    + rewrite Hlen. reflexivity.
  - rewrite (proj2 (Nat.ltb_ge _ _)) by exact Hshort.
    split; [reflexivity|]. split; [exact Hshort|]. split; reflexivity.
Qed.

End HistoryBounds.

Section SessionIsolation.

Context {V : Type}.
Implicit Types (d : list (list N * V)) (k : list N) (v : V).

Lemma dict_get_set_ne d k k' v :
  k' ≠ k → dict_get k' (dict_set k v d) = dict_get k' d.
Proof.
  intros Hne. induction d as [|[k0 v0] d IH]; cbn.
  - rewrite decide_False by done. reflexivity.
  - destruct (decide (k0 = k)) as [->|Hk]; cbn.
    + rewrite !decide_False by done. reflexivity.
    + destruct (decide (k0 = k')); [reflexivity|exact IH].
Qed.

Lemma dict_get_keys d k : dict_get k d = None ↔ k ∉ List.map fst d.
Proof.
  induction d as [|[k0 v0] d IH]; cbn.
  - split; [intros _; apply not_elem_of_nil|reflexivity].
  - rewrite not_elem_of_cons.
    destruct (decide (k0 = k)) as [->|Hk].
    + split; [discriminate|intros [? _]; congruence].
    + rewrite IH. split; [intros ?; split; congruence|intros [_ ?]; done].
Qed.

Lemma dict_set_keys d k v :
  List.map fst (dict_set k v d)
  = match dict_get k d with
    | Some _ => List.map fst d
    | None => List.map fst d ++ [k]
    end.
Proof.
  induction d as [|[k0 v0] d IH]; cbn; [reflexivity|].
  destruct (decide (k0 = k)) as [->|Hk]; cbn; [reflexivity|].
  rewrite IH. destruct (dict_get k d); reflexivity.
Qed.

Lemma dict_set_ok d k v : dict_ok d → dict_ok (dict_set k v d).
Proof.
  unfold dict_ok. intros Hd. rewrite dict_set_keys.
  destruct (dict_get k d) eqn:E; [exact Hd|].
  apply NoDup_app. split; [exact Hd|]. split; [|apply NoDup_singleton].
  intros x Hx ->%list_elem_of_singleton.
  by apply dict_get_keys in E.
Qed.

Lemma dict_drop_ok d n : dict_ok d → dict_ok (drop n d).
Proof.
  unfold dict_ok. intros Hd.
  rewrite <- (take_drop n d), List.map_app in Hd.
  by apply NoDup_app in Hd as (_ & _ & Hd).
Qed.

(** In a dictionary that holds each key once, what is found after the
    oldest entries went was found before. *)
Lemma dict_get_drop_Some d k v n :
  dict_ok d → dict_get k (drop n d) = Some v → dict_get k d = Some v.
Proof.
  unfold dict_ok. revert n. induction d as [|[k0 v0] d IH]; intros [|n];
    cbn [drop]; try done.
  cbn [List.map fst]. intros Hd%NoDup_cons Hget. destruct Hd as [Hk0 Hd].
  cbn [dict_get]. destruct (decide (k0 = k)) as [->|Hk]; [|by eapply IH].
  exfalso. apply Hk0. apply (IH n Hd) in Hget.
  destruct (decide (k ∈ List.map fst d)) as [|Hn]; [done|].
  apply dict_get_keys in Hn. congruence.
Qed.

End SessionIsolation.

(** ** The update block and texts without a block *)

Section UpdateBlock.

Context (b : update_block) (Hwf : update_well_formed b = true).

Lemma update_well_formed_plain :
  plain (u_gap0 b) = true ∧ plain (u_id b) = true ∧ plain (u_gap1 b) = true
  ∧ plain (u_name b) = true ∧ plain (u_gap2 b) = true
  ∧ plain (u_url b) = true ∧ plain (u_gap3 b) = true
  ∧ plain (u_reason b) = true ∧ plain (u_gap4 b) = true
  ∧ plain (u_agreed_text b) = true ∧ plain (u_gap5 b) = true.
Proof using Hwf.
  unfold update_well_formed in Hwf. apply andb_true_iff in Hwf as [Hplain _].
  cbn [forallb] in Hplain. repeat (apply andb_true_iff in Hplain as [? Hplain]).
  done.
Qed.

Lemma update_body_no_closing_delimiter :
  occurs UPDATE_CLOSE (update_body b) = false.
Proof using Hwf.
  destruct update_well_formed_plain as (?&?&?&?&?&?&?&?&?&?&?).
  unfold update_body, element. rewrite <- !app_assoc.
  repeat first
    [ rewrite (occurs_plain_app UPDATE_CLOSE eq_refl) by assumption
    | rewrite (occurs_tag_app UPDATE_CLOSE eq_refl) by reflexivity ].
  apply (occurs_plain UPDATE_CLOSE eq_refl). assumption.
Qed.

Lemma update_extract_fields :
  extract (update_body b) (lit "id") = strip (u_id b)
  ∧ extract (update_body b) (lit "name") = strip (u_name b)
  ∧ extract (update_body b) (lit "url") = strip (u_url b)
  ∧ extract (update_body b) (lit "reason") = strip (u_reason b)
  ∧ extract (update_body b) (lit "agreed_text") = strip (u_agreed_text b).
Proof using Hwf.
  destruct update_well_formed_plain as (?&?&?&?&?&?&?&?&?&?&?).
  unfold update_body. repeat split.
  - apply extract_element; try reflexivity; apply occurs_plain; done.
  - rewrite (app_assoc (u_gap0 b)), (app_assoc _ (u_gap1 b)).
    apply extract_element; try reflexivity; [|apply occurs_plain; done].
    unfold element. rewrite <- !app_assoc. walk.
  - rewrite (app_assoc (u_gap0 b)), (app_assoc _ (u_gap1 b)),
      (app_assoc _ (element _ (u_name b))), (app_assoc _ (u_gap2 b)).
    apply extract_element; try reflexivity; [|apply occurs_plain; done].
    unfold element. rewrite <- !app_assoc. walk.
  - rewrite (app_assoc (u_gap0 b)), (app_assoc _ (u_gap1 b)),
      (app_assoc _ (element _ (u_name b))), (app_assoc _ (u_gap2 b)),
      (app_assoc _ (element _ (u_url b))), (app_assoc _ (u_gap3 b)).
    apply extract_element; try reflexivity; [|apply occurs_plain; done].
    unfold element. rewrite <- !app_assoc. walk.
  - rewrite (app_assoc (u_gap0 b)), (app_assoc _ (u_gap1 b)),
      (app_assoc _ (element _ (u_name b))), (app_assoc _ (u_gap2 b)),
      (app_assoc _ (element _ (u_url b))), (app_assoc _ (u_gap3 b)),
      (app_assoc _ (element _ (u_reason b))), (app_assoc _ (u_gap4 b)).
    apply extract_element; try reflexivity; [|apply occurs_plain; done].
    unfold element. rewrite <- !app_assoc. walk.
Qed.

(** [_parse_update_tag] on a text whose first update block is well formed
    (values and the text between the sub-fields hold no [<], no value is
    empty after trimming) and whose id [int()] reads as [item_id].  When a
    row has the id, its four content fields are replaced by the trimmed
    values, id, timestamp and done flag are kept, and the updated row is
    returned with the text before the block followed by the stripped text
    after it, trimmed.  When no row has the id nothing is written and the
    call raises, so the turn fails: [TypeError], or [OverflowError] for an
    id outside the 64-bit range. *)
Theorem update_block_extraction (pre post o c : list N) (item_id : Z)
  (t : Db.table) :
  spelled UPDATE_OPEN o → spelled UPDATE_CLOSE c →
  occurs UPDATE_OPEN pre = false →
  Py.int (strip (u_id b)) = Some item_id →
  (∀ r, Db.rows t !! item_id = Some r → Db.fits_int64 item_id = true →
     _parse_update_tag (pre ++ o ++ update_body b ++ c ++ post) t
     = ({| Db.rows :=
             <[item_id := updated_row (u_name b) (u_url b) (u_reason b)
                            (u_agreed_text b) r]> (Db.rows t);
           Db.last_rowid := Db.last_rowid t |},
        Py.Return (strip (pre ++ sub update_pattern [] post),
                   Some (updated_row (u_name b) (u_url b) (u_reason b)
                           (u_agreed_text b) r))))
  ∧ (Db.rows t !! item_id = None →
     _parse_update_tag (pre ++ o ++ update_body b ++ c ++ post) t
     = (t, Py.Raise (if Db.fits_int64 item_id then Py.TypeError
                     else Py.OverflowError))).
Proof using Hwf.
  intros Ho Hc Hpre Hint.
  pose proof (tagged_first_block UPDATE_OPEN UPDATE_CLOSE eq_refl eq_refl
                pre o (update_body b) c post Hpre
                update_body_no_closing_delimiter Ho Hc) as Hs.
  fold update_pattern in Hs.
  destruct (sub_after_first_match UPDATE_OPEN UPDATE_CLOSE _ _ _ _ eq_refl Hs)
    as [Hsub _].
  fold update_pattern in Hsub.
  unfold _parse_update_tag. rewrite Hs, Hsub.
  destruct update_extract_fields as (-> & -> & -> & -> & ->).
  pose proof Hwf as [_ ->]%andb_true_iff. cbn [negb]. rewrite Hint.
  unfold Db.update_news_item. split.
  - intros r Hr Hfit. rewrite Hfit, Hr. cbn [negb Db.rows].
    rewrite lookup_insert_eq, !strip_idem. reflexivity.
  - intros Hnone. destruct (Db.fits_int64 item_id); cbn [negb]; [|reflexivity].
    rewrite Hnone, Hnone. reflexivity.
Qed.

End UpdateBlock.

Lemma update_block_extraction_witness :
  _parse_update_tag
    (lit "Updating. " ++ lit "<Update_Item>" ++ update_body ada_update
     ++ UPDATE_CLOSE ++ lit " Done!") one_item
  = ({| Db.rows :=
          <[1%Z := updated_row (lit "Ada L.") (lit "example.com/y")
                     (lit "typo in the link") (lit "**Fixed.** Done.")
                     (saved_row noon ada Db.empty)]> (Db.rows one_item);
        Db.last_rowid := 1 |},
     Py.Return (strip (lit "Updating. " ++ sub update_pattern [] (lit " Done!")),
                Some (updated_row (lit "Ada L.") (lit "example.com/y")
                        (lit "typo in the link") (lit "**Fixed.** Done.")
                        (saved_row noon ada Db.empty)))).
Proof.
  apply (proj1 (update_block_extraction ada_update eq_refl
                  (lit "Updating. ") (lit " Done!") (lit "<Update_Item>")
                  UPDATE_CLOSE 1 one_item eq_refl eq_refl eq_refl eq_refl)).
  - vm_compute. reflexivity.
  - reflexivity.
Defined.

Section NoBlock.

Context (op cl : list N).

(** Without a closing delimiter there is no block. *)
Lemma tagged_needs_close (s : list N) :
  occurs cl s = false → search (match_tagged op cl) s = None.
Proof.
  intros Hs. apply search_None. intros a b ->.
  destruct (match_tagged op cl b) as [[g rest]|] eqn:Hm; [|reflexivity].
  destruct (tagged_Some op cl _ _ _ Hm) as (o & c & -> & _ & Hc).
  pose proof (proj1 (occurs_false cl _) Hs (a ++ o ++ g) (c ++ rest)) as Hno.
  rewrite <- !app_assoc in Hno. specialize (Hno eq_refl).
  rewrite (spelled_app _ _ _ Hc) in Hno. discriminate.
Qed.

End NoBlock.

(** A text in which a variant's opening or closing delimiter does not occur
    holds no block of that variant: the parser writes nothing, returns no
    record, and returns the text as it came, white space at its ends
    included. *)
Theorem no_block_verbatim (now text : list N) (t : Db.table) :
  (occurs SAVE_OPEN text = false ∨ occurs SAVE_CLOSE text = false →
   _parse_save_tag now text t = (t, Py.Return (text, None)))
  ∧ (occurs UPDATE_OPEN text = false ∨ occurs UPDATE_CLOSE text = false →
     _parse_update_tag text t = (t, Py.Return (text, None))).
Proof.
  split; intros Hnone.
  - unfold _parse_save_tag, save_pattern.
    destruct Hnone as [H|H];
      [rewrite (tagged_no_match _ _ _ H) | rewrite (tagged_needs_close _ _ _ H)];
      reflexivity.
  - unfold _parse_update_tag, update_pattern.
    destruct Hnone as [H|H];
      [rewrite (tagged_no_match _ _ _ H) | rewrite (tagged_needs_close _ _ _ H)];
      reflexivity.
Qed.

Lemma no_block_verbatim_witness :
  _parse_save_tag noon (lit "  I will add <SAVE_ITEM> once you approve. ")
    one_item
  = (one_item,
     Py.Return (lit "  I will add <SAVE_ITEM> once you approve. ", None))
  ∧ _parse_update_tag (lit " Nothing to change. ") one_item
    = (one_item, Py.Return (lit " Nothing to change. ", None)).
Proof.
  split.
  - apply (proj1 (no_block_verbatim noon _ one_item)). right.
    vm_compute. reflexivity.
  - apply (proj2 (no_block_verbatim noon _ one_item)). left.
    vm_compute. reflexivity.
Defined.

(** ** Dash normalisation and the delimiters *)

Section Separators.

(** No character of a wordlike pattern matches a separator. *)
Lemma wordlike_separator (pc c : N) :
  wordlike [pc] = true → separator c = true →
  literal_ignorecase pc c = false.
Proof.
  unfold wordlike, separator, isspace, EM_DASH, EN_DASH. cbn [forallb].
  rewrite andb_true_r.
  rewrite !orb_true_iff, !andb_true_iff, !N.leb_le, !N.eqb_eq.
  intros Hpc Hc. unfold literal_ignorecase, ascii_lower.
  assert (Hcu : (65 <=? c)%N && (c <=? 90)%N = false).
  { apply andb_false_iff. rewrite !N.leb_gt. lia. }
  rewrite Hcu.
  destruct ((65 <=? pc)%N && (pc <=? 90)%N) eqn:Hup.
  - apply andb_true_iff in Hup as [H1%N.leb_le H2%N.leb_le].
    repeat (rewrite orb_false_iff || rewrite andb_false_iff).
    rewrite !N.eqb_neq. lia.
  - apply andb_false_iff in Hup. rewrite !N.leb_gt in Hup.
    repeat (rewrite orb_false_iff || rewrite andb_false_iff).
    rewrite !N.eqb_neq. lia.
Qed.

Context (p : list N) (Hword : wordlike p = true) (Hp : p ≠ []).

Lemma wordlike_head : ∃ pc p', p = pc :: p' ∧ wordlike [pc] = true.
Proof using Hword Hp.
  destruct p as [|pc p']; [done|]. exists pc, p'. split; [reflexivity|].
  unfold wordlike in *. cbn [forallb] in *.
  apply andb_true_iff in Hword as [-> _]. reflexivity.
Qed.

Lemma occurs_unfold (c : N) (s : list N) :
  occurs p (c :: s)
  = match match_literal p (c :: s) with
    | Some _ => true
    | None => occurs p s
    end.
Proof.
  unfold occurs. cbn [match_lazy_until].
  destruct (match_literal p (c :: s)); [reflexivity|].
  destruct (match_lazy_until p s) as [[g rest]|]; reflexivity.
Qed.

Lemma occurs_empty : occurs p [] = false.
Proof using Hp. clear Hword. destruct p; [done|reflexivity]. Qed.

(** A match of the pattern cannot reach over a separator. *)
Lemma match_literal_separator (u y : list N) (c : N) :
  separator c = true →
  match match_literal p (u ++ c :: y) with Some _ => true | None => false end
  = match match_literal p u with Some _ => true | None => false end.
Proof using Hword.
  intros Hc. clear Hp. revert u Hword.
  induction p as [|pc p' IH]; intros u Hw; [reflexivity|].
  assert (Hpc : wordlike [pc] = true ∧ wordlike p' = true).
  { unfold wordlike in *. cbn [forallb] in *.
    apply andb_true_iff in Hw as [-> ->]. done. }
  destruct Hpc as [Hpc Hp']. destruct u as [|u0 u]; cbn [app match_literal].
  - rewrite (wordlike_separator pc c Hpc Hc). reflexivity.
  - destruct (literal_ignorecase pc u0); [apply IH, Hp'|reflexivity].
Qed.

Lemma occurs_separator (x y : list N) (c : N) :
  separator c = true →
  occurs p (x ++ c :: y) = occurs p x || occurs p y.
Proof using Hword Hp.
  intros Hc. induction x as [|c0 x IH].
  - cbn [app]. rewrite occurs_unfold, occurs_empty.
    pose proof (match_literal_separator [] y c Hc) as Hm. cbn [app] in Hm.
    destruct (match_literal p (c :: y)); [|reflexivity].
    destruct wordlike_head as (pc & p' & Hpp & _). rewrite Hpp in Hm.
    discriminate.
  - cbn [app]. rewrite !occurs_unfold.
    pose proof (match_literal_separator (c0 :: x) y c Hc) as Hm.
    cbn [app] in Hm.
    destruct (match_literal p (c0 :: x ++ c :: y)),
      (match_literal p (c0 :: x)); try discriminate; [reflexivity|exact IH].
Qed.

Lemma occurs_separators (x mid y : list N) :
  mid ≠ [] → forallb separator mid = true →
  occurs p (x ++ mid ++ y) = occurs p x || occurs p y.
Proof using Hword Hp.
  intros Hmid Hall.
  assert (Hskip : ∀ mid', forallb separator mid' = true →
                          occurs p (mid' ++ y) = occurs p y).
  { induction mid' as [|c mid' IH]; [reflexivity|]. cbn [forallb app].
    intros [Hc Hrest]%andb_true_iff.
    pose proof (occurs_separator [] (mid' ++ y) c Hc) as Hhere.
    cbn [app] in Hhere. rewrite Hhere, occurs_empty.
    exact (IH Hrest). }
  destruct mid as [|c mid']; [done|]. cbn [forallb app] in *.
  apply andb_true_iff in Hall as [Hc Hrest].
  rewrite (occurs_separator x (mid' ++ y) c Hc), (Hskip _ Hrest).
  reflexivity.
Qed.

Lemma separating_sound {A} (m : list N → option (A * list N)) :
  separating m → sound m.
Proof.
  intros Hm s g rest Hs. destruct (Hm s g rest Hs) as (mid & ? & _ & ?).
  eauto.
Qed.

(** Replacing runs of separators by a run of separators neither brings the
    pattern in nor takes it out. *)
Lemma sub_separating {A} (m : list N → option (A * list N)) (repl : list N) :
  separating m → repl ≠ [] → forallb separator repl = true →
  ∀ s, occurs p (sub m repl s) = occurs p s.
Proof using Hword Hp.
  intros Hm Hrepl Hsep s. pose proof (separating_sound m Hm) as Hsound.
  remember (length s) as n eqn:Hn. revert s Hn.
  induction n as [n IH] using lt_wf_ind. intros s ->.
  rewrite (sub_unfold m Hsound).
  destruct (search m s) as [[[pre g] rest]|] eqn:Hs; [|reflexivity].
  pose proof (search_shrinks m Hsound _ _ _ _ Hs) as Hlt.
  apply search_Some in Hs as (mid & -> & Hmid & _).
  destruct (Hm _ _ _ Hmid) as (mid' & Hne & Hall & ->).
  rewrite (occurs_separators pre repl _ Hrepl Hsep).
  rewrite (occurs_separators pre mid' rest Hne Hall).
  rewrite (IH _ Hlt rest eq_refl). reflexivity.
Qed.

End Separators.

Section DashSteps.

Lemma lstrip_suffix_space (s : list N) :
  ∃ ws, s = ws ++ lstrip s ∧ forallb isspace ws = true.
Proof.
  induction s as [|c s (ws & IH & Hws)]; [exists []; done|].
  cbn [lstrip]. destruct (isspace c) eqn:Hc.
  - exists (c :: ws). cbn [app forallb]. rewrite Hc, Hws. split; [|done].
    f_equal. exact IH.
  - exists []. done.
Qed.

Lemma space_separator (ws : list N) :
  forallb isspace ws = true → forallb separator ws = true.
Proof.
  rewrite !forallb_forall. intros H x Hx. unfold separator.
  rewrite (H x Hx). reflexivity.
Qed.

Lemma match_spaced_separating (d : N) :
  separator d = true → separating (match_spaced d).
Proof.
  intros Hd s [] rest. unfold match_spaced.
  destruct (lstrip_suffix_space s) as (ws & Hs & Hws).
  destruct (lstrip s) as [|c r]; [discriminate|].
  destruct (N.eqb_spec c d) as [->|]; [|discriminate]. intros [= <-].
  destruct (lstrip_suffix_space r) as (ws' & Hr & Hws').
  exists (ws ++ d :: ws'). split; [destruct ws; done|]. split.
  - rewrite forallb_app. cbn [forallb].
    rewrite (space_separator _ Hws), (space_separator _ Hws'), Hd. reflexivity.
  - rewrite Hs, Hr at 1. rewrite <- app_assoc. reflexivity.
Qed.

Lemma match_comma_pair_separating : separating match_comma_pair.
Proof.
  intros s [] rest. unfold match_comma_pair.
  destruct s as [|c r]; [discriminate|].
  destruct (N.eqb_spec c 44) as [->|]; [|discriminate].
  destruct (lstrip_suffix_space r) as (ws & Hr & Hws).
  destruct (lstrip r) as [|c2 r2]; [discriminate|].
  destruct (N.eqb_spec c2 44) as [->|]; [|discriminate]. intros [= <-].
  exists (44%N :: ws ++ [44%N]). split; [done|]. split.
  - cbn [forallb]. rewrite forallb_app, (space_separator _ Hws). reflexivity.
  - rewrite Hr at 1. cbn. rewrite <- app_assoc. reflexivity.
Qed.



Lemma sub_comma_pair_fixed (s : list N) :
  sub match_comma_pair (lit ",") s = s → search match_comma_pair s = None.
Proof.
  rewrite (sub_unfold _ match_comma_pair_sound).
  destruct (search match_comma_pair s) as [[[pre g] rest]|] eqn:Hs;
    [|reflexivity].
  intros Heq. exfalso.
  apply search_Some in Hs as (mid & Htext & Hmid & _).
  apply match_comma_pair_Some in Hmid as (c & ws & c2 & ->).
  pose proof (sub_comma_pair_length rest) as Hle.
  apply (f_equal length) in Heq. rewrite Htext in Heq.
  change (lit ",") with [44%N] in *.
  rewrite !length_app in Heq. cbn [length] in Heq.
  rewrite !length_app in Heq. cbn [length] in Heq. lia.
Qed.

(** The texts that [_strip_dashes] leaves as they are: exactly those with
    no em dash, no en dash and no two commas with only white space between
    them. *)
Theorem strip_dashes_fixpoints (s : list N) :
  _strip_dashes s = s
  ↔ (EM_DASH ∉ s) ∧ (EN_DASH ∉ s) ∧ search match_comma_pair s = None.
Proof.
  assert (Hplain : (EM_DASH ∉ s) → (EN_DASH ∉ s) →
                   _strip_dashes s = sub match_comma_pair (lit ",") s).
  { intros Hem Hen. unfold _strip_dashes.
    rewrite (sub_no_match _ _ s (search_spaced_absent EM_DASH s Hem)).
    rewrite (sub_no_match _ _ s (search_spaced_absent EN_DASH s Hen)).
    reflexivity. }
  split.
  - intros Hfix. pose proof (strip_dashes_no_dash s) as [Hem Hen].
    rewrite Hfix in Hem, Hen. split; [exact Hem|]. split; [exact Hen|].
    apply sub_comma_pair_fixed. rewrite <- (Hplain Hem Hen). exact Hfix.
  - intros (Hem & Hen & Hcomma). rewrite (Hplain Hem Hen).
    apply sub_no_match, Hcomma.
Qed.

End DashSteps.

(** ** Sessions, the rate gate and the turn as a whole *)

Section SessionStore.

Implicit Types (ss : list (list N * list Llm.message)).

(** The two ways [_get_or_create_session] ends. *)
Lemma get_or_create_session_cases (session_id : list N) ss :
  (∃ history, dict_get session_id ss = Some history
              ∧ _get_or_create_session session_id ss = (ss, history))
  ∨ (dict_get session_id ss = None
     ∧ ∃ n, _get_or_create_session session_id ss
            = (dict_set session_id [] (drop n ss), [])).
Proof.
  unfold _get_or_create_session.
  destruct (dict_get session_id ss) as [history|] eqn:E; [left; eauto|].
  right. split; [reflexivity|]. rewrite evict_oldest.
  destruct (MAX_SESSIONS <=? length ss);
    [exists (MAX_SESSIONS / 10) | exists 0]; reflexivity.
Qed.

(** What [_get_or_create_session] may do to a store that holds each key
    once: the result holds each key once and the session asked for, with
    the history that is returned; every other session that is still there
    has the history it had; and asking again changes nothing. *)
Theorem get_or_create_session_isolated (session_id : list N) ss :
  dict_ok ss →
  dict_ok (_get_or_create_session session_id ss).1
  ∧ dict_get session_id (_get_or_create_session session_id ss).1
    = Some (_get_or_create_session session_id ss).2
  ∧ (∀ other history, other ≠ session_id →
       dict_get other (_get_or_create_session session_id ss).1 = Some history →
       dict_get other ss = Some history)
  ∧ _get_or_create_session session_id (_get_or_create_session session_id ss).1
    = _get_or_create_session session_id ss.
Proof.
  intros Hok.
  destruct (get_or_create_session_cases session_id ss)
    as [(history & Hget & ->)|(Hnew & n & ->)]; cbn [fst snd].
  - split; [exact Hok|]. split; [exact Hget|]. split; [done|].
    unfold _get_or_create_session. rewrite Hget. reflexivity.
  - split; [apply dict_set_ok, dict_drop_ok, Hok|].
    split; [apply dict_get_set_eq|]. split.
    + intros other history Hne. rewrite dict_get_set_ne by exact Hne.
      apply dict_get_drop_Some, Hok.
    + unfold _get_or_create_session. rewrite dict_get_set_eq. reflexivity.
Qed.

Lemma get_or_create_session_isolated_witness :
  dict_ok (opened 3)
  ∧ dict_get (session_name 7)
      (_get_or_create_session (session_name 7) (opened 3)).1
    = Some (_get_or_create_session (session_name 7) (opened 3)).2.
Proof.
  assert (Hok : dict_ok (opened 3)).
  { apply (bool_decide_unpack _). vm_compute. exact I. }
  split; [exact Hok|].
  apply (get_or_create_session_isolated (session_name 7) (opened 3) Hok).
Defined.

End SessionStore.

Section RateLimit.

(** The rate-limit map over time: every entry counts between 1 and
    [_RL_MAX] after a check as before it; the client checked has an entry;
    no other client's entry is touched; and a refused check changes
    nothing, the client's count standing at [_RL_MAX]. *)
Theorem check_rate_limit_invariant (now : float) (ip : list N)
  (rl : gmap (list N) (Z * float)) :
  rate_ok rl →
  rate_ok (_check_rate_limit now ip rl).1
  ∧ is_Some ((_check_rate_limit now ip rl).1 !! ip)
  ∧ (∀ other, other ≠ ip →
       (_check_rate_limit now ip rl).1 !! other = rl !! other)
  ∧ ((_check_rate_limit now ip rl).2 = false →
     (_check_rate_limit now ip rl).1 = rl
     ∧ ∃ start, rl !! ip = Some (_RL_MAX, start)).
Proof.
  intros Hok.
  assert (Hins : ∀ count start, (1 ≤ count ≤ _RL_MAX)%Z →
                   rate_ok (<[ip := (count, start)]> rl)).
  { intros count start Hc ip' count' start'.
    destruct (decide (ip' = ip)) as [->|Hne].
    - rewrite lookup_insert_eq. intros [= <- <-]. exact Hc.
    - rewrite lookup_insert_ne by congruence. apply Hok. }
  unfold _check_rate_limit.
  destruct (rl !! ip) as [[count start]|] eqn:E; cbn [fst snd].
  - pose proof (Hok _ _ _ E) as Hc.
    destruct (PrimFloat.ltb _ _); cbn [fst snd].
    + split; [apply Hins; unfold _RL_MAX; lia|].
      split; [rewrite lookup_insert_eq; eauto|].
      split; [intros other Hne; apply lookup_insert_ne; congruence|done].
    + destruct (Z.leb_spec _RL_MAX count) as [Hmax|Hroom]; cbn [fst snd].
      * split; [exact Hok|]. split; [rewrite ?E; eauto|]. split; [done|].
        intros _. split; [reflexivity|]. exists start.
        rewrite ?E. do 2 f_equal. lia.
      * split; [apply Hins; lia|].
        split; [rewrite lookup_insert_eq; eauto|].
        split; [intros other Hne; apply lookup_insert_ne; congruence|done].
  - split; [apply Hins; unfold _RL_MAX; lia|].
    split; [rewrite lookup_insert_eq; eauto|].
    split; [intros other Hne; apply lookup_insert_ne; congruence|done].
Qed.

Lemma check_rate_limit_invariant_witness :
  rate_ok {[ burst_ip := (20%Z, burst_start) ]}
  ∧ rate_ok (_check_rate_limit 12.5%float burst_ip
               {[ burst_ip := (20%Z, burst_start) ]}).1.
Proof.
  assert (Hok : rate_ok {[ burst_ip := (20%Z, burst_start) ]}).
  { intros ip count start [_ [= <- _]]%lookup_singleton_Some.
    unfold _RL_MAX. lia. }
  split; [exact Hok|].
  apply (check_rate_limit_invariant 12.5%float burst_ip _ Hok).
Defined.

End RateLimit.

Section WholeTurn.

Context (env : turn) (client : option (list N)) (session_id message : list N).
Context (st : state).

(** A request that the rate gate refuses is answered with status 429 and
    changes nothing at all: not the rate-limit map, not the sessions, not
    the table of items. *)
Theorem throttled_request_changes_nothing :
  (_check_rate_limit (monotonic env) (default (lit "unknown") client)
     (_rate_limit st)).2 = false →
  chat_endpoint env client session_id message st
  = (st, Py.Raise (Py.HTTPException 429)).
Proof.
  intros Hno. unfold chat_endpoint.
  assert (Hrl : _check_rate_limit (monotonic env)
                  (default (lit "unknown") client) (_rate_limit st)
                = (_rate_limit st, false)).
  { revert Hno. unfold _check_rate_limit.
    destruct (_rate_limit st !! _) as [[count start]|]; [|discriminate].
    destruct (PrimFloat.ltb _ _); [discriminate|].
    destruct (_RL_MAX <=? count)%Z; [reflexivity|discriminate]. }
  rewrite Hrl. cbn [negb]. destruct st; reflexivity.
Qed.


Lemma trim_history_length (history : list Llm.message) :
  length (_trim_history history) ≤ MAX_HISTORY.
Proof.
  unfold _trim_history, MAX_HISTORY.
  destruct (Nat.ltb_spec 60 (length history)) as [Hlong|Hshort]; [|exact Hshort].
  rewrite length_app, length_take, length_drop. lia.
Qed.

Lemma trim_history_head (history : list Llm.message) :
  head (_trim_history history) = head history.
Proof.
  unfold _trim_history, MAX_HISTORY.
  destruct (Nat.ltb_spec 60 (length history)) as [Hlong|Hshort]; [|reflexivity].
  destruct history as [|m history]; [cbn in Hlong; lia|reflexivity].
Qed.


(** A turn, however it ends, leaves the sessions of other ids alone: the
    store still holds each key once, and every other session that is still
    there has the history it had. *)
Theorem chat_endpoint_isolated :
  dict_ok (sessions st) →
  dict_ok (sessions (chat_endpoint env client session_id message st).1)
  ∧ ∀ other history, other ≠ session_id →
      dict_get other
        (sessions (chat_endpoint env client session_id message st).1)
      = Some history →
      dict_get other (sessions st) = Some history.
Proof.
  intros Hok.
  assert (Hgoc : dict_ok (_get_or_create_session session_id (sessions st)).1
                 ∧ ∀ other history, other ≠ session_id →
                     dict_get other
                       (_get_or_create_session session_id (sessions st)).1
                     = Some history →
                     dict_get other (sessions st) = Some history).
  { destruct (get_or_create_session_cases session_id (sessions st))
      as [(history & Hget & ->)|(Hnew & n & ->)]; cbn [fst snd]; [done|].
    split; [apply dict_set_ok, dict_drop_ok, Hok|].
    intros other history Hne. rewrite dict_get_set_ne by exact Hne.
    apply dict_get_drop_Some, Hok. }
  unfold chat_endpoint.
  destruct (_check_rate_limit _ _ _) as [rl allowed].
  destruct allowed; cbn [negb]; [|done].
  destruct (_get_or_create_session session_id (sessions st)) as [ss history].
  cbn [fst] in Hgoc.
  destruct (truthy (strip message)); cbn [negb]; [|exact Hgoc].
  destruct (Llm.chat _ _ _) as [[raw updated_history]|]; [|exact Hgoc].
  destruct (match _parse_save_tag _ _ _ with (t, Py.Return (c, None)) => _
            | saved => saved end) as [t [[cleaned item]|e]];
    cbn [fst sessions]; [|exact Hgoc].
  destruct Hgoc as [Hss Hother]. split; [apply dict_set_ok, Hss|].
  intros other h Hne. rewrite dict_get_set_ne by exact Hne. apply Hother, Hne.
Qed.

(** A reply that, once normalised, holds no complete block of either
    variant (an opening or the closing delimiter of each is missing) is
    returned as the normaliser left it, white space at its ends included;
    no item is returned and the table is as it was. *)
Theorem chat_plain_reply (rl : gmap (list N) (Z * float))
  (text : option (list N)) :
  _check_rate_limit (monotonic env) (default (lit "unknown") client)
    (_rate_limit st) = (rl, true) →
  truthy (strip message) = true →
  completion env = Llm.Answered text →
  occurs SAVE_OPEN (_strip_dashes (default [] text)) = false
  ∨ occurs SAVE_CLOSE (_strip_dashes (default [] text)) = false →
  occurs UPDATE_OPEN (_strip_dashes (default [] text)) = false
  ∨ occurs UPDATE_CLOSE (_strip_dashes (default [] text)) = false →
  (chat_endpoint env client session_id message st).2
  = Py.Return {| response := _strip_dashes (default [] text);
                 saved_item := None |}
  ∧ news_items (chat_endpoint env client session_id message st).1
    = news_items st.
Proof.
  intros Hcheck Hmsg Hanswer Hsave Hupdate.
  assert (Hps : _parse_save_tag (utc_now env)
                  (_strip_dashes (default [] text)) (news_items st)
                = (news_items st,
                   Py.Return (_strip_dashes (default [] text), None))).
  { unfold _parse_save_tag, save_pattern.
    destruct Hsave as [H|H];
      [rewrite (tagged_no_match _ _ _ H) | rewrite (tagged_needs_close _ _ _ H)];
      reflexivity. }
  assert (Hpu : _parse_update_tag (_strip_dashes (default [] text))
                  (news_items st)
                = (news_items st,
                   Py.Return (_strip_dashes (default [] text), None))).
  { unfold _parse_update_tag, update_pattern.
    destruct Hupdate as [H|H];
      [rewrite (tagged_no_match _ _ _ H) | rewrite (tagged_needs_close _ _ _ H)];
      reflexivity. }
  unfold chat_endpoint. rewrite Hcheck. cbn [negb].
  destruct (_get_or_create_session session_id (sessions st)) as [ss history].
  rewrite Hmsg. cbn [negb]. unfold Llm.chat. rewrite Hanswer.
  rewrite Hps, Hpu. split; reflexivity.
Qed.

End WholeTurn.

Lemma throttled_request_changes_nothing_witness :
  chat_endpoint outage (Some burst_ip) (session_name 0) (lit "hello")
    {| _rate_limit := {[ burst_ip := (20%Z, burst_start) ]};
       sessions := sessions running; news_items := one_item |}
  = ({| _rate_limit := {[ burst_ip := (20%Z, burst_start) ]};
        sessions := sessions running; news_items := one_item |},
     Py.Raise (Py.HTTPException 429)).
Proof.
  apply throttled_request_changes_nothing. vm_compute. reflexivity.
Defined.



Lemma chat_endpoint_isolated_witness :
  dict_ok (sessions running)
  ∧ dict_ok (sessions (chat_endpoint (answering ada_reply) None
                         (session_name 1) (lit "save it") running).1).
Proof.
  assert (Hok : dict_ok (sessions running)).
  { apply (bool_decide_unpack _). vm_compute. exact I. }
  split; [exact Hok|].
  apply (chat_endpoint_isolated (answering ada_reply) None (session_name 1)
           (lit "save it") running Hok).
Defined.

Lemma chat_plain_reply_witness :
  (chat_endpoint (answering (lit " Tell me more " ++ [EM_DASH] ++ lit " what is the link? "))
     None (session_name 0) (lit "hello") running).2
  = Py.Return
      {| response :=
           _strip_dashes
             (default []
                (Some (lit " Tell me more " ++ [EM_DASH]
                       ++ lit " what is the link? ")));
         saved_item := None |}
  ∧ news_items (chat_endpoint (answering (lit " Tell me more " ++ [EM_DASH] ++ lit " what is the link? "))
                  None (session_name 0) (lit "hello") running).1
    = news_items running.
Proof.
  apply (chat_plain_reply
           (answering (lit " Tell me more " ++ [EM_DASH]
                       ++ lit " what is the link? "))
           None (session_name 0) (lit "hello") running
           (<[lit "unknown" := (1%Z, 12.5%float)]> ∅) _);
    [reflexivity | reflexivity | reflexivity
    | left; vm_compute; reflexivity | left; vm_compute; reflexivity].
Defined.

(** ** The feed note *)

Section FeedNote.

Lemma feed_entries_redact (start : nat) (items : list Db.NewsItem) :
  feed_entries start (List.map redact items) = feed_entries start items.
Proof.
  revert start. induction items as [|item items IH]; intros start;
    [reflexivity|].
  cbn [List.map feed_entries]. rewrite IH. f_equal.
  unfold feed_entry, Py.slice_to, redact.
  cbn [Db.submitter_name Db.url Db.agreed_text Db.created_at].
  rewrite take_take, Nat.min_id. reflexivity.
Qed.

(** The feed note sent to the model depends only on the submitter, the
    url, the blurb and the first ten characters of the timestamp of each
    item: the private reason, the id and the done flag are never part of
    it. *)
Theorem feed_context_leaves_out_reason (items : list Db.NewsItem) :
  _build_feed_context (List.map redact items) = _build_feed_context items.
Proof.
  destruct items as [|item items]; [reflexivity|].
  unfold _build_feed_context.
  change (List.map redact (item :: items))
    with (redact item :: List.map redact items) at 1.
  cbv beta iota.
  change (redact item :: List.map redact items)
    with (List.map redact (item :: items)).
  rewrite feed_entries_redact, length_map. reflexivity.
Qed.

End FeedNote.
